(** * Chrome bridge: relay, in-browser endpoint and CDP session controller

    A shallow embedding of the message-passing core of the chrome-bridge:

    - [Background]: the extension's service worker (the CDP session
      controller and the command executor): the attached-tab set, the
      per-tab console and network buffers, the debugger event listener,
      [ensureDebuggerAttached], [detachDebugger], [cdpEvaluate], [cdpClick],
      [cdpType], [cdpScroll], [readConsole], [readNetwork];
    - [Content]: the content script's element lookup and the DOM-fallback
      click and scroll;
    - [Endpoint]: the offscreen document's [ws.onmessage] handler;
    - [Relay]: the WebSocket server ([wss.on('connection')], [handleCommand]).

    JavaScript numbers that the code uses as identifiers, counts and indices
    are integers here ([Z]); objects are records; [Map] and [Set] globals are
    [gmap] and [gset]; a promise that a handler awaits is run to its
    settlement inside the handler's turn. *)

From stdpp Require Import gmap strings list pretty.
From Stdlib Require Import ZArith Lia.

Open Scope Z_scope.

(** ** JavaScript values and string helpers *)

(** The JSON values the handlers inspect.  Objects and arrays only travel
    through the bridge and are kept as their JSON text. *)
Inductive jsval :=
| JUndefined
| JNull
| JBool (b : bool)
| JNum (n : Z)
| JStr (s : string)
| JData (json : string).

#[global] Instance jsval_eq_dec : EqDecision jsval.
Proof. solve_decision. Defined.

(** JavaScript truthiness ([if (v)], [v && ...], [v || ...]). *)
Definition truthy (v : jsval) : bool :=
  match v with
  | JUndefined | JNull => false
  | JBool b => b
  | JNum n => negb (n =? 0)
  | JStr s => negb (String.eqb s EmptyString)
  | JData _ => true
  end.

Fixpoint starts_with (p s : string) : bool :=
  match p, s with
  | EmptyString, _ => true
  | String a p', String b s' => if Ascii.eqb a b then starts_with p' s' else false
  | String _ _, EmptyString => false
  end.

(** [hay.includes(needle)] *)
Fixpoint includes (needle hay : string) : bool :=
  if starts_with needle hay then true
  else match hay with
       | EmptyString => false
       | String _ rest => includes needle rest
       end.

(** [arr.slice(start)]: a negative [start] counts from the end. *)
Definition slice_from {A} (start : Z) (arr : list A) : list A :=
  let len := Z.of_nat (length arr) in
  let k := if start <? 0 then Z.max (len + start) 0 else Z.min start len in
  drop (Z.to_nat k) arr.

(** [arr.splice(0, count)] as used on the buffers: the array that remains. *)
Definition splice_front {A} (count : Z) (arr : list A) : list A :=
  drop (Z.to_nat count) arr.

(** The last [n] elements of a list (the whole list when it is shorter). *)
Definition last_n {A} (n : nat) (l : list A) : list A :=
  drop (length l - n)%nat l.

(** How a function ends: it returns (an [async] one is fulfilled), it throws
    an [Error] of the given message (is rejected), or it is still running when
    the recursion budget of the model is used up (only [cdpEvaluate]
    recurses). *)
Inductive outcome (A : Type) :=
| Done (a : A)
| Threw (message : string)
| OutOfFuel.
Arguments Done {A} a.
Arguments Threw {A} message.
Arguments OutOfFuel {A}.

(** What a browser API call or a [JSON.parse] settles to. *)
Inductive reply (A : Type) :=
| Fulfilled (a : A)
| Rejected (message : string).
Arguments Fulfilled {A} a.
Arguments Rejected {A} message.

(** What an [onMessage] listener passes to [sendResponse]: the value the
    handler returned, or [{ error: error.message }]. *)
Inductive response (A : Type) :=
| Answer (a : A)
| ErrorAnswer (error : string).
Arguments Answer {A} a.
Arguments ErrorAnswer {A} error.

(** A JSON frame of the wire protocol, by the fields the bridge reads and
    writes; a field that is absent is [JUndefined]. *)
Record message := {
  msg_type : jsval;
  msg_id : jsval;
  msg_command : jsval;
  msg_params : jsval;
  msg_result : jsval;
  msg_error : jsval;
  msg_message : jsval
}.

#[global] Instance message_eq_dec : EqDecision message.
Proof. solve_decision. Defined.

Definition empty_message : message :=
  {| msg_type := JUndefined; msg_id := JUndefined; msg_command := JUndefined;
     msg_params := JUndefined; msg_result := JUndefined; msg_error := JUndefined;
     msg_message := JUndefined |}.

(** [{ ...m, id }] *)
Definition with_id (id : jsval) (m : message) : message :=
  {| msg_type := msg_type m; msg_id := id; msg_command := msg_command m;
     msg_params := msg_params m; msg_result := msg_result m;
     msg_error := msg_error m; msg_message := msg_message m |}.

(** [{ id, error }] *)
Definition error_frame (id : jsval) (error : string) : message :=
  {| msg_type := JUndefined; msg_id := id; msg_command := JUndefined;
     msg_params := JUndefined; msg_result := JUndefined; msg_error := JStr error;
     msg_message := JUndefined |}.

(** [{ id, result }] *)
Definition result_frame (id : jsval) (result : jsval) : message :=
  {| msg_type := JUndefined; msg_id := id; msg_command := JUndefined;
     msg_params := JUndefined; msg_result := result; msg_error := JUndefined;
     msg_message := JUndefined |}.

(** ** The background service worker *)

Module Background.

(** An entry of [consoleMessages]: [{ type, text, timestamp }]. *)
Record console_entry := {
  c_type : string;
  c_text : option string;
  c_timestamp : Z
}.

(** An entry of [networkRequests]: [{ url, status, mimeType, requestId }]. *)
Record network_entry := {
  n_url : option string;
  n_status : option Z;
  n_mimeType : option string;
  n_requestId : string
}.

(** A console argument ([params.args[i]]): [value] (already as the text that
    [join] makes of it) and [description]. *)
Record remote_object := {
  ro_value : option string;
  ro_description : option string
}.

(** [params.exceptionDetails]: [text] and [exception?.description]. *)
Record exception_details := {
  exc_text : option string;
  exc_description : option string
}.

(** [params.response]: [url], [status], [mimeType]. *)
Record response_info := {
  resp_url : option string;
  resp_status : option Z;
  resp_mimeType : option string
}.

(** The [(method, params)] of a [chrome.debugger.onEvent] notification. *)
Inductive debugger_event :=
| Runtime_consoleAPICalled (type : string) (args : option (list remote_object))
                           (timestamp : Z)
| Runtime_exceptionThrown (exceptionDetails : option exception_details)
                          (timestamp : Z)
| Network_responseReceived (response : option response_info) (requestId : string)
| Other_event (method : string).

(** The expressions the service worker has the page evaluate: the
    strict-mode wrapper of [cdpEvaluate] around the caller's script, and the
    locator expressions of [cdpClick], [cdpType] and [cdpScroll]. *)
Inductive page_expr :=
| IsolatedEval (script : string)
| LocateCenter (selector : string)
| FocusAndClear (selector : string) (clear : bool)
| ScrollIntoView (selector : string).

(** The protocol commands sent with [chrome.debugger.sendCommand] (the
    parameters that do not influence the control flow of the service worker,
    such as [returnByValue], [awaitPromise], [button], are left out). *)
Inductive cdp_command :=
| Runtime_enable
| Network_enable (maxPostDataSize : Z)
| Runtime_evaluate (expression : page_expr)
| Input_dispatchMouseEvent (type : string) (x y : option Z)
| Input_mouseWheel (x y deltaX deltaY : Z)
| Input_insertText (text : string)
| Input_dispatchKeyEvent (type : string) (key : string).

(** The API calls the service worker makes on the browser. *)
Inductive api_call :=
| Debugger_attach (tabId : Z)
| Debugger_detach (tabId : Z)
| Debugger_sendCommand (tabId : Z) (cmd : cdp_command)
| Tabs_get (tabId : Z)
| Tabs_query_active.

(** The three module-level globals of the service worker, and the history of
    the browser API calls made so far (most recent first). *)
Record world := {
  attachedTabs : gset Z;
  consoleMessages : gmap Z (list console_entry);
  networkRequests : gmap Z (list network_entry);
  calls : list api_call
}.

Definition init : world :=
  {| attachedTabs := ∅; consoleMessages := ∅; networkRequests := ∅; calls := [] |}.

Definition set_attachedTabs (f : gset Z → gset Z) (w : world) : world :=
  {| attachedTabs := f (attachedTabs w); consoleMessages := consoleMessages w;
     networkRequests := networkRequests w; calls := calls w |}.

Definition set_consoleMessages
  (f : gmap Z (list console_entry) → gmap Z (list console_entry)) (w : world) : world :=
  {| attachedTabs := attachedTabs w; consoleMessages := f (consoleMessages w);
     networkRequests := networkRequests w; calls := calls w |}.

Definition set_networkRequests
  (f : gmap Z (list network_entry) → gmap Z (list network_entry)) (w : world) : world :=
  {| attachedTabs := attachedTabs w; consoleMessages := consoleMessages w;
     networkRequests := f (networkRequests w); calls := calls w |}.

Definition record_call (c : api_call) (w : world) : world :=
  {| attachedTabs := attachedTabs w; consoleMessages := consoleMessages w;
     networkRequests := networkRequests w; calls := c :: calls w |}.

(** [consoleMessages.get(tabId) || []] and [networkRequests.get(tabId) || []] *)
Definition console_of (w : world) (tabId : Z) : list console_entry :=
  default [] (consoleMessages w !! tabId).

Definition network_of (w : world) (tabId : Z) : list network_entry :=
  default [] (networkRequests w !! tabId).

(** [a.value ?? a.description ?? ''] *)
Definition arg_text (a : remote_object) : string :=
  match ro_value a with
  | Some v => v
  | None => default EmptyString (ro_description a)
  end.

(** [parts.join(' ')] *)
Fixpoint join_space (parts : list string) : string :=
  match parts with
  | [] => EmptyString
  | [p] => p
  | p :: rest => String.append p (String.append " " (join_space rest))
  end.

(** [params.exceptionDetails?.text + ': ' +
     (params.exceptionDetails?.exception?.description || '')] *)
Definition exception_text (d : option exception_details) : string :=
  String.append (default "undefined"%string (d ≫= exc_text))
    (String.append ": " (default EmptyString (d ≫= exc_description))).

(** The [chrome.debugger.onEvent] listener. *)
Definition onEvent (tabId : Z) (ev : debugger_event) (w : world) : world :=
  match ev with
  | Runtime_consoleAPICalled type args timestamp =>
      let msgs := console_of w tabId in
      let msgs := msgs ++ [ {| c_type := type;
                               c_text := (λ l, join_space (arg_text <$> l)) <$> args;
                               c_timestamp := timestamp |} ] in
      let msgs := if 500 <? Z.of_nat (length msgs)
                  then splice_front (Z.of_nat (length msgs) - 500) msgs else msgs in
      set_consoleMessages (insert tabId msgs) w
  | Runtime_exceptionThrown details timestamp =>
      let msgs := console_of w tabId in
      let msgs := msgs ++ [ {| c_type := "error";
                               c_text := Some (exception_text details);
                               c_timestamp := timestamp |} ] in
      set_consoleMessages (insert tabId msgs) w
  | Network_responseReceived response requestId =>
      let reqs := network_of w tabId in
      let reqs := reqs ++ [ {| n_url := response ≫= resp_url;
                               n_status := response ≫= resp_status;
                               n_mimeType := response ≫= resp_mimeType;
                               n_requestId := requestId |} ] in
      let reqs := if 200 <? Z.of_nat (length reqs)
                  then splice_front (Z.of_nat (length reqs) - 200) reqs else reqs in
      set_networkRequests (insert tabId reqs) w
  | Other_event _ => w
  end.

(** Ingestion of a sequence of notifications, each for its own tab. *)
Definition ingest (evs : list (Z * debugger_event)) (w : world) : world :=
  foldl (λ w te, onEvent te.1 te.2 w) w evs.

(** The entry the listener makes of [console.log()] called at time [i], and
    [n] such calls in tab [tabId], at times [1..n]. *)
Definition console_call_entry (i : nat) : console_entry :=
  {| c_type := "log"; c_text := Some EmptyString; c_timestamp := Z.of_nat i |}.

Definition console_calls (tabId : Z) (n : nat) : list (Z * debugger_event) :=
  (λ i, (tabId, Runtime_consoleAPICalled "log" (Some []) (Z.of_nat i))) <$> seq 1 n.

(** *** Asynchronous functions against the browser *)

Definition M (A : Type) : Type := world → outcome A * world.

Definition ret {A} (a : A) : M A := λ w, (Done a, w).

Definition throw {A} (message : string) : M A := λ w, (Threw message, w).

Definition bind {A B} (m : M A) (k : A → M B) : M B :=
  λ w, match m w with
       | (Done a, w') => k a w'
       | (Threw e, w') => (Threw e, w')
       | (OutOfFuel, w') => (OutOfFuel, w')
       end.

(** [try { m } catch (error) { handler(error.message) }] *)
Definition try_catch {A} (m : M A) (handler : string → M A) : M A :=
  λ w, match m w with
       | (Threw e, w') => handler e w'
       | r => r
       end.

Definition modify (f : world → world) : M unit := λ w, (Done (), f w).

Definition get_world : M world := λ w, (Done w, w).

Notation "'let*' x ':=' m 'in' k" := (bind m (λ x, k))
  (at level 10, x name, m at level 100, k at level 200).
Notation "'run' m 'in' k" := (bind m (λ _, k))
  (at level 10, m at level 100, k at level 200).

(** The [result] object that [chrome.debugger.sendCommand] hands to its
    callback: [exceptionDetails] and [result?.value].  A value is a JSON
    value or, for the click locator, a point [{x, y}]. *)
Inductive page_value :=
| Plain (v : jsval)
| Point (x y : Z).

Record cdp_result := {
  exceptionDetails : option exception_details;
  result_value : option page_value
}.

(** The browser: what each API call settles to, given the calls made before
    it.  [chrome.debugger.sendCommand] rejects when [chrome.runtime.lastError]
    is set. *)
Record browser := {
  debugger_attach : list api_call → Z → reply unit;
  debugger_detach : list api_call → Z → reply unit;
  debugger_sendCommand : list api_call → Z → cdp_command → reply cdp_result;
  tabs_get : list api_call → Z → reply (option Z);
  tabs_query_active : list api_call → reply (list Z)
}.

Section Worker.

Variable chrome : browser.

(** [await <api call>]: the call is recorded and its settlement returned. *)
Definition await {A} (c : api_call) (r : list api_call → reply A) : M A :=
  λ w, match r (calls w) with
       | Fulfilled a => (Done a, record_call c w)
       | Rejected e => (Threw e, record_call c w)
       end.

Definition cdpSend (tabId : Z) (cmd : cdp_command) : M cdp_result :=
  await (Debugger_sendCommand tabId cmd)
        (λ h, debugger_sendCommand chrome h tabId cmd).

Definition ensureDebuggerAttached (tabId : Z) : M unit :=
  let* w := get_world in
  if decide (tabId ∈ attachedTabs w) then ret ()
  else
    try_catch
      (run await (Debugger_attach tabId) (λ h, debugger_attach chrome h tabId) in
       run modify (set_attachedTabs (λ s, {[tabId]} ∪ s)) in
       run cdpSend tabId Runtime_enable in
       run cdpSend tabId (Network_enable 65536) in
       run modify (λ w, if decide (is_Some (consoleMessages w !! tabId)) then w
                        else set_consoleMessages (insert tabId []) w) in
       modify (λ w, if decide (is_Some (networkRequests w !! tabId)) then w
                    else set_networkRequests (insert tabId []) w))
      (λ message,
         if includes "Already attached" message
         then modify (set_attachedTabs (λ s, {[tabId]} ∪ s))
         else throw (String.append "Debugger attach failed: " message)).

(** The state change shared by [detachDebugger] and the [onDetach] listener:
    the tab leaves the attached set and both of its buffers are deleted. *)
Definition forget (tabId : Z) (w : world) : world :=
  set_networkRequests (delete tabId)
    (set_consoleMessages (delete tabId)
       (set_attachedTabs (λ s, s ∖ {[tabId]}) w)).

Definition detachDebugger (tabId : Z) : M unit :=
  let* w := get_world in
  if decide (tabId ∈ attachedTabs w) then
    run try_catch (await (Debugger_detach tabId) (λ h, debugger_detach chrome h tabId))
                  (λ _, ret ()) in
    modify (forget tabId)
  else ret ().

(** The [chrome.debugger.onDetach] listener. *)
Definition onDetach (tabId : Z) (w : world) : world := forget tabId w.

(** The [chrome.tabs.onRemoved] listener. *)
Definition onRemoved (tabId : Z) : M unit := detachDebugger tabId.

(** [getActiveTab(tabId)]; the tab is represented by its [id]. *)
Definition getActiveTab (tabId : option Z) : M Z :=
  match tabId with
  | Some t =>
      if t =? 0 then
        let* tabs := await Tabs_query_active (tabs_query_active chrome) in
        match tabs with
        | tab :: _ => ret tab
        | [] => throw "No active tab found"
        end
      else
        let* tab := await (Tabs_get t) (λ h, tabs_get chrome h t) in
        match tab with
        | Some tab => ret tab
        | None => throw (String.append "Tab not found: " (pretty t))
        end
  | None =>
      let* tabs := await Tabs_query_active (tabs_query_active chrome) in
      match tabs with
      | tab :: _ => ret tab
      | [] => throw "No active tab found"
      end
  end.

(** [a || b] on strings that may be missing. *)
Definition or_else (a : option string) (b : string) : string :=
  match a with
  | Some s => if String.eqb s EmptyString then b else s
  | None => b
  end.

(** [cdpEvaluate]'s result object: [{ error }] or [{ result }]. *)
Inductive evaluate_reply :=
| EvalError (error : string)
| EvalResult (result : page_value).

(** What [cdpEvaluate] makes of a fulfilled [Runtime.evaluate]:
    [{ error: exceptionDetails.exception?.description || exceptionDetails.text
              || 'Evaluation error' }] when [exceptionDetails] is set,
    [{ result: result.result?.value ?? null }] otherwise. *)
Definition evaluate_reply_of (result : cdp_result) : evaluate_reply :=
  match exceptionDetails result with
  | Some d =>
      EvalError (or_else (exc_description d) (or_else (exc_text d) "Evaluation error"))
  | None =>
      EvalResult (match result_value result with
                  | Some (Plain JUndefined) | None => Plain JNull
                  | Some v => v
                  end)
  end.

(** [params] of [cdpEvaluate]: [script] and [tabId] ([awaitPromise] and
    [timeout] are only passed on to the protocol). *)
Record evaluate_params := {
  ev_script : string;
  ev_tabId : option Z
}.

(** [cdpEvaluate(params)].  The function calls itself from its [catch]
    block; [fuel] bounds the depth of that recursion in the model. *)
Fixpoint cdpEvaluate (fuel : nat) (params : evaluate_params) : M evaluate_reply :=
  match fuel with
  | O => λ w, (OutOfFuel, w)
  | S fuel' =>
      let* tab := getActiveTab (ev_tabId params) in
      run ensureDebuggerAttached tab in
      try_catch
        (let* result := cdpSend tab (Runtime_evaluate (IsolatedEval (ev_script params))) in
         ret (evaluate_reply_of result))
        (λ message,
           if includes "not attached" message then
             run modify (set_attachedTabs (λ s, s ∖ {[tab]})) in
             run ensureDebuggerAttached tab in
             cdpEvaluate fuel' params
           else throw message)
  end.

(** [selector && ...], [if (selector)]: the selector when it is truthy. *)
Definition given (selector : option string) : option string :=
  match selector with
  | Some sel => if String.eqb sel EmptyString then None else Some sel
  | None => None
  end.

(** [params] of [cdpClick] ([button] and [clickCount] are only passed on). *)
Record click_params := {
  ck_x : option Z;
  ck_y : option Z;
  ck_selector : option string;
  ck_tabId : option Z
}.

(** [{ success: true, clicked: { x, y } }] *)
Record click_reply := {
  clicked_x : option Z;
  clicked_y : option Z
}.

Definition cdpClick (params : click_params) : M click_reply :=
  let* tab := getActiveTab (ck_tabId params) in
  run ensureDebuggerAttached tab in
  let* click :=
    match given (ck_selector params), ck_x params, ck_y params with
    | Some _, Some x, Some y => ret (Some x, Some y)
    | Some sel, _, _ =>
        let* coords := cdpSend tab (Runtime_evaluate (LocateCenter sel)) in
        match result_value coords with
        | Some (Point x y) => ret (Some x, Some y)
        | Some (Plain v) =>
            if truthy v then ret (None, None)
            else throw (String.append "Element not found: " sel)
        | None => throw (String.append "Element not found: " sel)
        end
    | None, x, y => ret (x, y)
    end in
  run cdpSend tab (Input_dispatchMouseEvent "mouseMoved" click.1 click.2) in
  run cdpSend tab (Input_dispatchMouseEvent "mousePressed" click.1 click.2) in
  run cdpSend tab (Input_dispatchMouseEvent "mouseReleased" click.1 click.2) in
  ret {| clicked_x := click.1; clicked_y := click.2 |}.

(** [params] of [cdpType]; [clear] and [pressEnter] with their defaults
    already applied ([true] and [false]). *)
Record type_params := {
  ty_selector : option string;
  ty_text : string;
  ty_clear : bool;
  ty_pressEnter : bool;
  ty_tabId : option Z
}.

(** [{ success: true, typed: text }] *)
Record type_reply := { typed : string }.

Definition cdpType (params : type_params) : M type_reply :=
  let* tab := getActiveTab (ty_tabId params) in
  run ensureDebuggerAttached tab in
  run match given (ty_selector params) with
      | Some sel =>
          run cdpSend tab (Runtime_evaluate (FocusAndClear sel (ty_clear params))) in
          ret ()
      | None => ret ()
      end in
  run cdpSend tab (Input_insertText (ty_text params)) in
  run (if ty_pressEnter params then
         run cdpSend tab (Input_dispatchKeyEvent "keyDown" "Enter") in
         run cdpSend tab (Input_dispatchKeyEvent "keyUp" "Enter") in
         ret ()
       else ret ()) in
  ret {| typed := ty_text params |}.

(** [params] of [cdpScroll], numeric fields with their default [0] applied. *)
Record scroll_params := {
  sc_x : Z;
  sc_y : Z;
  sc_deltaX : Z;
  sc_deltaY : Z;
  sc_selector : option string;
  sc_tabId : option Z
}.

(** [{ success: true, scrolledTo: selector }] or
    [{ success: true, scrolled: { deltaX, deltaY } }] *)
Inductive scroll_reply :=
| ScrolledTo (selector : string)
| Scrolled (deltaX deltaY : Z).

(** [n || d] on numbers. *)
Definition num_or (n d : Z) : Z := if n =? 0 then d else n.

Definition cdpScroll (params : scroll_params) : M scroll_reply :=
  let* tab := getActiveTab (sc_tabId params) in
  run ensureDebuggerAttached tab in
  match given (sc_selector params) with
  | Some sel =>
      run cdpSend tab (Runtime_evaluate (ScrollIntoView sel)) in
      ret (ScrolledTo sel)
  | None =>
      run cdpSend tab (Input_mouseWheel (num_or (sc_x params) 100)
                         (num_or (sc_y params) 100)
                         (num_or (sc_deltaX params) 0)
                         (num_or (sc_deltaY params) 300)) in
      ret (Scrolled (sc_deltaX params) (sc_deltaY params))
  end.

(** [params] of [readConsole] and [readNetwork]; a missing field is [None]. *)
Record read_params := {
  rd_tabId : option Z;
  rd_clear : option bool;
  rd_limit : option Z
}.

(** [{ messages: result, count: result.length }] *)
Record console_reply := {
  messages : list console_entry;
  messages_count : Z
}.

(** [{ requests: result, count: result.length }] *)
Record network_reply := {
  requests : list network_entry;
  requests_count : Z
}.

Definition readConsole (params : read_params) : M console_reply :=
  let* tab := getActiveTab (rd_tabId params) in
  let* w := get_world in
  let msgs := console_of w tab in
  let clear := default false (rd_clear params) in
  let limit := default 100 (rd_limit params) in
  let result := slice_from (- limit) msgs in
  run (if clear then modify (set_consoleMessages (insert tab [])) else ret ()) in
  ret {| messages := result; messages_count := Z.of_nat (length result) |}.

Definition readNetwork (params : read_params) : M network_reply :=
  let* tab := getActiveTab (rd_tabId params) in
  let* w := get_world in
  let reqs := network_of w tab in
  let clear := default false (rd_clear params) in
  let limit := default 50 (rd_limit params) in
  let result := slice_from (- limit) reqs in
  run (if clear then modify (set_networkRequests (insert tab [])) else ret ()) in
  ret {| requests := result; requests_count := Z.of_nat (length result) |}.

(** [debuggerAttach()] and [debuggerDetachCommand()]:
    [{ success: true, tabId: tab.id }] *)
Definition debuggerAttach : M Z :=
  let* tab := getActiveTab None in
  run ensureDebuggerAttached tab in
  ret tab.

Definition debuggerDetachCommand : M Z :=
  let* tab := getActiveTab None in
  run detachDebugger tab in
  ret tab.

(** The [chrome.runtime.onMessage] listener, for a command:
    [handleCommand(data).then(sendResponse)
       .catch(error => sendResponse({ error: error.message }))]. *)
Definition onMessage_command {A} (command : M A) (w : world)
  : option (response A) * world :=
  match command w with
  | (Done a, w') => (Some (Answer a), w')
  | (Threw e, w') => (Some (ErrorAnswer e), w')
  | (OutOfFuel, w') => (None, w')
  end.

End Worker.

(** *** The page behind a tab *)

(** The part of a document the locator expressions look at. *)
Record document := {
  querySelector : string → option (Z * Z);
  xpath_first : string → option (Z * Z);
  run_script : string → cdp_result
}.

(** What the page makes of an expression.  An exception thrown by the
    expression comes back in [exceptionDetails] of a fulfilled
    [Runtime.evaluate] (the case [cdpEvaluate] tests for), not as a
    rejection.  An element is represented by the centre of its rectangle. *)
Definition page_eval (d : document) (e : page_expr) : cdp_result :=
  match e with
  | IsolatedEval script => run_script d script
  | LocateCenter sel =>
      match querySelector d sel, xpath_first d sel with
      | Some (x, y), _ | None, Some (x, y) =>
          {| exceptionDetails := None; result_value := Some (Point x y) |}
      | None, None =>
          {| exceptionDetails := None; result_value := Some (Plain JNull) |}
      end
  | FocusAndClear sel _ =>
      match querySelector d sel, xpath_first d sel with
      | Some _, _ | None, Some _ =>
          {| exceptionDetails := None; result_value := Some (Plain (JBool true)) |}
      | None, None =>
          {| exceptionDetails :=
               Some {| exc_text := Some "Uncaught"%string;
                       exc_description :=
                         Some (String.append "Error: Element not found: " sel) |};
             result_value := None |}
      end
  | ScrollIntoView sel =>
      {| exceptionDetails := None;
         result_value := Some (Plain (JBool (bool_decide (is_Some (querySelector d sel))))) |}
  end.

(** A browser showing document [d] in every tab, with tab [1] active, where
    every API call succeeds. *)
Definition page_browser (d : document) : browser :=
  {| debugger_attach := λ _ _, Fulfilled ();
     debugger_detach := λ _ _, Fulfilled ();
     debugger_sendCommand := λ _ _ cmd,
       match cmd with
       | Runtime_evaluate e => Fulfilled (page_eval d e)
       | _ => Fulfilled {| exceptionDetails := None; result_value := None |}
       end;
     tabs_get := λ _ t, Fulfilled (Some t);
     tabs_query_active := λ _, Fulfilled [1] |}.

(** A document in which no selector matches anything. *)
Definition empty_document : document :=
  {| querySelector := λ _, None;
     xpath_first := λ _, None;
     run_script := λ _, {| exceptionDetails := None; result_value := None |} |}.

(** Two states with the same three globals (they may differ in the history
    of API calls). *)
Definition same_globals (w w' : world) : Prop :=
  attachedTabs w' = attachedTabs w
  ∧ consoleMessages w' = consoleMessages w
  ∧ networkRequests w' = networkRequests w.

(** Tab [tabId] has no debugging session: it is not in [attachedTabs] and
    has no buffer in either map (the state of a tab that was never attached,
    and the state [detachDebugger] and [onDetach] leave). *)
Definition no_session (w : world) (tabId : Z) : Prop :=
  (tabId ∉ attachedTabs w)
  ∧ consoleMessages w !! tabId = None
  ∧ networkRequests w !! tabId = None.

(** *** Browsers that lose the debugger *)

Definition is_evaluate (c : api_call) : bool :=
  match c with
  | Debugger_sendCommand _ (Runtime_evaluate (IsolatedEval _)) => true
  | _ => false
  end.

Definition is_attach (c : api_call) : bool :=
  match c with
  | Debugger_attach _ => true
  | _ => false
  end.

Fixpoint count_calls (f : api_call → bool) (history : list api_call) : nat :=
  match history with
  | [] => 0
  | c :: history' => (if f c then 1 else 0) + count_calls f history'
  end.

(** A browser with tab [1] active in which every call succeeds, except that
    the [i]-th [Runtime.evaluate] of a script (counting from 0) settles to
    [attempts i]. *)
Definition scripted (attempts : nat → reply cdp_result) : browser :=
  {| debugger_attach := λ _ _, Fulfilled ();
     debugger_detach := λ _ _, Fulfilled ();
     debugger_sendCommand := λ history _ cmd,
       match cmd with
       | Runtime_evaluate (IsolatedEval _) => attempts (count_calls is_evaluate history)
       | _ => Fulfilled {| exceptionDetails := None; result_value := None |}
       end;
     tabs_get := λ _ t, Fulfilled (Some t);
     tabs_query_active := λ _, Fulfilled [1] |}.

(** The rejection [cdpEvaluate] retries on. *)
Definition is_not_attached (r : reply cdp_result) : bool :=
  match r with
  | Rejected message => includes "not attached" message
  | Fulfilled _ => false
  end.

(** How [cdpEvaluate] ends on an attempt that it does not retry. *)
Definition finish (r : reply cdp_result) : outcome evaluate_reply :=
  match r with
  | Fulfilled result => Done (evaluate_reply_of result)
  | Rejected message => Threw message
  end.

(** The debugger is gone on the first [k] attempts and back on the next,
    which evaluates to [42]; and a debugger that is gone on every attempt. *)
Definition detached_message : string :=
  "Debugger is not attached to the tab with id: 1.".

Definition detached_times (k : nat) (i : nat) : reply cdp_result :=
  if (i <? k)%nat then Rejected detached_message
  else Fulfilled {| exceptionDetails := None;
                    result_value := Some (Plain (JNum 42)) |}.

Definition detached_forever (i : nat) : reply cdp_result :=
  Rejected detached_message.

(** *** Measures on notifications and on the history of calls *)

(** The number of [Runtime.exceptionThrown] notifications for [tabId]. *)
Fixpoint exceptions_for (tabId : Z) (evs : list (Z * debugger_event)) : nat :=
  match evs with
  | [] => 0
  | (t, Runtime_exceptionThrown _ _) :: evs' =>
      (if decide (t = tabId) then 1 else 0) + exceptions_for tabId evs'
  | _ :: evs' => exceptions_for tabId evs'
  end.

(** The mouse events dispatched so far, oldest first. *)
Definition mouse_events (history : list api_call)
  : list (string * option Z * option Z) :=
  omap (λ c, match c with
             | Debugger_sendCommand _ (Input_dispatchMouseEvent type x y) =>
                 Some (type, x, y)
             | _ => None
             end) (reverse history).

(** The selectors looked up by the click locator so far, oldest first. *)
Definition lookups (history : list api_call) : list string :=
  omap (λ c, match c with
             | Debugger_sendCommand _ (Runtime_evaluate (LocateCenter sel)) => Some sel
             | _ => None
             end) (reverse history).

(** The text and key events sent so far, oldest first. *)
Inductive input_event :=
| InsertText (text : string)
| Key (type : string) (key : string).

Definition input_events (history : list api_call) : list input_event :=
  omap (λ c, match c with
             | Debugger_sendCommand _ (Input_insertText text) => Some (InsertText text)
             | Debugger_sendCommand _ (Input_dispatchKeyEvent type key) =>
                 Some (Key type key)
             | _ => None
             end) (reverse history).

(** *** The states the service worker reaches *)

(** The commands of [handleCommand] embedded above, and the removal of a
    tab. *)
Inductive command :=
| Evaluate (fuel : nat) (params : evaluate_params)
| CdpClick (params : click_params)
| CdpType (params : type_params)
| CdpScroll (params : scroll_params)
| ReadConsole (params : read_params)
| ReadNetwork (params : read_params)
| DebuggerAttach
| DebuggerDetach
| TabRemoved (tabId : Z).

(** The state a command leaves, however it ends. *)
Definition after (chrome : browser) (c : command) (w : world) : world :=
  match c with
  | Evaluate fuel params => (cdpEvaluate chrome fuel params w).2
  | CdpClick params => (cdpClick chrome params w).2
  | CdpType params => (cdpType chrome params w).2
  | CdpScroll params => (cdpScroll chrome params w).2
  | ReadConsole params => (readConsole chrome params w).2
  | ReadNetwork params => (readNetwork chrome params w).2
  | DebuggerAttach => (debuggerAttach chrome w).2
  | DebuggerDetach => (debuggerDetachCommand chrome w).2
  | TabRemoved tabId => (onRemoved chrome tabId w).2
  end.

(** The states reached from the initial one by notifications, detach
    notifications and commands, in any order. *)
Inductive reachable (chrome : browser) : world → Prop :=
| reach_init : reachable chrome init
| reach_onEvent t ev w : reachable chrome w → reachable chrome (onEvent t ev w)
| reach_onDetach t w : reachable chrome w → reachable chrome (onDetach t w)
| reach_command c w : reachable chrome w → reachable chrome (after chrome c w).

(** Every async function run from a state leaves one related to it by [R]. *)
Definition respects {A} (R : world → world → Prop) (m : M A) : Prop :=
  ∀ w o w', m w = (o, w') → R w w'.

(** The buffers of every tab read the same in both states. *)
Definition same_buffers (w w' : world) : Prop :=
  ∀ t, console_of w' t = console_of w t ∧ network_of w' t = network_of w t.

(** The network buffer of every tab holds at most 200 entries. *)
Definition network_bounded (w : world) : Prop :=
  ∀ t, (length (network_of w t) ≤ 200)%nat.

End Background.

(** ** The content script *)

Module Content.

(** The part of the page the content script looks at; an element is
    represented by a number. *)
Record page := {
  querySelector : string → option nat;
  xpath_first : string → option nat;
  elementFromPoint : Z → Z → option nat
}.

(** What the handlers do to the page. *)
Inductive dom_effect :=
| Click (element : nat)
| ScrollIntoView (element : nat) (behavior : string)
| ScrollBy (left top : Z) (behavior : string).

(** [findElement(selector)] *)
Definition findElement (d : page) (selector : string) : option nat :=
  if starts_with "//" selector || starts_with "(//" selector
  then xpath_first d selector
  else querySelector d selector.

(** [params] of [clickElement]. *)
Record click_params := {
  ck_selector : string;
  ck_x : option Z;
  ck_y : option Z
}.

(** [{ success: true, clicked: 'coordinate' }] or
    [{ success: true, clicked: selector }] *)
Inductive click_reply :=
| ClickedCoordinate
| ClickedSelector (selector : string).

Definition clickElement (d : page) (params : click_params)
  : outcome click_reply * list dom_effect :=
  match ck_x params, ck_y params with
  | Some x, Some y =>
      match elementFromPoint d x y with
      | Some element => (Done ClickedCoordinate, [Click element])
      | None =>
          (Threw (String.append "No element at ("
                    (String.append (pretty x)
                       (String.append ", " (String.append (pretty y) ")")))), [])
      end
  | _, _ =>
      match findElement d (ck_selector params) with
      | None => (Threw (String.append "Element not found: " (ck_selector params)), [])
      | Some element =>
          (Done (ClickedSelector (ck_selector params)),
           [ScrollIntoView element "smooth"; Click element])
      end
  end.

(** [params] of [scrollPage], with the defaults [0], [0] and ['smooth']
    applied. *)
Record scroll_params := {
  sc_x : Z;
  sc_y : Z;
  sc_selector : option string;
  sc_behavior : string
}.

(** [{ success: true, scrolledTo: selector }] or
    [{ success: true, scrolled: { x, y } }] *)
Inductive scroll_reply :=
| ScrolledTo (selector : string)
| Scrolled (x y : Z).

Definition scrollPage (d : page) (params : scroll_params)
  : outcome scroll_reply * list dom_effect :=
  match Background.given (sc_selector params) with
  | Some selector =>
      match findElement d selector with
      | None => (Threw (String.append "Element not found: " selector), [])
      | Some element =>
          (Done (ScrolledTo selector), [ScrollIntoView element (sc_behavior params)])
      end
  | None =>
      (Done (Scrolled (sc_x params) (sc_y params)),
       [ScrollBy (sc_x params) (sc_y params) (sc_behavior params)])
  end.

(** The [chrome.runtime.onMessage] listener:
    [handleAction(...).then(sendResponse)
       .catch(error => sendResponse({ error: error.message }))]. *)
Definition onMessage {A} (handled : outcome A) : option (response A) :=
  match handled with
  | Done a => Some (Answer a)
  | Threw e => Some (ErrorAnswer e)
  | OutOfFuel => None
  end.

(** *** Typing and waiting *)

(** What [typeText] reads of an element: whether it is contenteditable
    ([isContentEditable || contentEditable === 'true']), its [innerHTML], its
    [value] ([None] when it has none) and its closest [form]. *)
Record element_state := {
  el_contentEditable : bool;
  el_innerHTML : string;
  el_value : option string;
  el_form : option nat
}.

(** [params] of [typeText], with the defaults applied ([clear = true],
    [pressEnter = false], [append = false]). *)
Record type_params := {
  ty_selector : string;
  ty_text : string;
  ty_clear : bool;
  ty_pressEnter : bool;
  ty_append : bool
}.

(** [{ success: true, typed: text }], with [contentEditable: true] for a
    contenteditable element. *)
Inductive type_reply :=
| Typed (text : string) (contentEditable : bool).

(** [element.focus()] and [target.dispatchEvent(new Event(name))]. *)
Inductive dom_event :=
| Focused (element : nat)
| Dispatched (target : nat) (name : string).

Section Typing.

(** What the element's [innerHTML] and [value] read after a string is
    assigned to them (the browser parses and serializes markup, and
    sanitizes the value of a form field). *)
Variable assigned_html : nat → string → string.
Variable assigned_value : nat → string → string.

Definition typeText (d : page) (elements : nat → element_state) (params : type_params)
  : outcome type_reply * (nat → element_state) * list dom_event :=
  match findElement d (ty_selector params) with
  | None =>
      (Threw (String.append "Element not found: " (ty_selector params)), elements, [])
  | Some element =>
      let e := elements element in
      let text := ty_text params in
      if el_contentEditable e then
        let cleared :=
          if ty_clear params then assigned_html element EmptyString
          else el_innerHTML e in
        let written :=
          if ty_append params then assigned_html element (String.append cleared text)
          else if negb (ty_clear params)
               then assigned_html element (String.append cleared text)
               else assigned_html element text in
        (Done (Typed text true),
         λ n, if decide (n = element)
              then {| el_contentEditable := el_contentEditable e;
                      el_innerHTML := written; el_value := el_value e;
                      el_form := el_form e |}
              else elements n,
         [Focused element; Dispatched element "input"; Dispatched element "change";
          Dispatched element "keyup"])
      else
        let cleared :=
          if ty_clear params then Some (assigned_value element EmptyString)
          else el_value e in
        let written :=
          assigned_value element
            (String.append (default "undefined"%string cleared) text) in
        (Done (Typed text false),
         λ n, if decide (n = element)
              then {| el_contentEditable := el_contentEditable e;
                      el_innerHTML := el_innerHTML e; el_value := Some written;
                      el_form := el_form e |}
              else elements n,
         [Focused element; Dispatched element "input"; Dispatched element "change"]
         ++ (if ty_pressEnter params then
               [Dispatched element "keydown"; Dispatched element "keypress";
                Dispatched element "keyup"]
               ++ match el_form e with
                  | Some form => [Dispatched form "submit"]
                  | None => []
                  end
             else []))
  end.

End Typing.

(** [{ found: true }] or [{ found: false, timeout: true }] *)
Inductive wait_reply :=
| Found
| TimedOut.

(** The loop of [waitForElement].  [clock k] is the [k]-th reading of
    [Date.now()] ([clock 0] is [startTime], [clock (S i)] the reading of the
    [i]-th test of the loop), [pages i] the page at the [i]-th lookup;
    [fuel] bounds the number of rounds in the model. *)
Fixpoint wait_loop (fuel : nat) (clock : nat → Z) (pages : nat → page)
    (selector : string) (timeout : Z) (i : nat) : outcome wait_reply :=
  match fuel with
  | O => OutOfFuel
  | S fuel' =>
      if clock (S i) - clock 0%nat <? timeout then
        match findElement (pages i) selector with
        | Some _ => Done Found
        | None => wait_loop fuel' clock pages selector timeout (S i)
        end
      else Done TimedOut
  end.

(** [waitForElement(params)], with the default [timeout = 10000] applied. *)
Definition waitForElement (fuel : nat) (clock : nat → Z) (pages : nat → page)
    (selector : string) (timeout : Z) : outcome wait_reply :=
  wait_loop fuel clock pages selector timeout 0.

End Content.

(** ** The in-browser endpoint (offscreen document) *)

Module Endpoint.

(** [ws.onmessage]: [parsed] is what [JSON.parse(event.data)] gives,
    [sendMessage] what [chrome.runtime.sendMessage({ type: 'command', data })]
    settles to.  The result is the list of frames passed to [ws.send]. *)
Definition onmessage (parsed : reply message) (sendMessage : message → reply jsval)
  : list message :=
  match parsed with
  | Rejected error => [error_frame JNull error]
  | Fulfilled data =>
      match sendMessage data with
      | Fulfilled result => [result_frame (msg_id data) result]
      | Rejected error => [error_frame JNull error]
      end
  end.

(** *** Relay addresses and reconnection *)

Definition DEFAULT_WS_URL : string := "ws://localhost:8765".

Definition FALLBACK_WS_URLS : list string := ["ws://127.0.0.1:8765"%string].

(** [Array.from(new Set(candidates))]: the candidates in the order of their
    first occurrence. *)
Fixpoint set_add_all (seen candidates : list string) : list string :=
  match candidates with
  | [] => seen
  | u :: rest =>
      set_add_all (if decide (u ∈ seen) then seen else seen ++ [u]) rest
  end.

Definition dedup (candidates : list string) : list string :=
  set_add_all [] candidates.

(** What [resolveWsUrlCandidates] reads: [qs.get('ws')] ([None] when it is
    [null] or reading the query throws) and what
    [chrome.storage.local.get(['ws_url'])] settles to (the [ws_url] of its
    data). *)
Record settings := {
  fromQuery : option string;
  stored : reply jsval
}.

(** The globals [ws] (by whether it is set and [OPEN]), [reconnectInterval]
    (by whether it is set), [candidateIndex] and [candidatesCache]. *)
Record offscreen := {
  ws_open : bool;
  reconnectInterval : bool;
  candidateIndex : nat;
  candidatesCache : option (list string)
}.

Definition start : offscreen :=
  {| ws_open := false; reconnectInterval := false; candidateIndex := 0;
     candidatesCache := None |}.

(** The first [connect()], the callback of the reconnect interval, and the
    [onopen], [onclose] and [onerror] of the current socket. *)
Inductive conn_event :=
| Start (cfg : settings)
| Tick (cfg : settings)
| WsOpen
| WsClose
| WsError.

(** [new WebSocket(url)] (which succeeded, or threw), the handshake,
    [setInterval] and [clearInterval]. *)
Inductive conn_action :=
| NewWebSocket (url : string)
| ConstructFailed (url : string)
| SendHandshake
| SetInterval (ms : Z)
| ClearInterval.

Section Connection.

(** [String.prototype.trim], and whether [new WebSocket(url)] returns
    rather than throws. *)
Variable trim : string → string.
Variable constructible : string → bool.

(** The list [resolveWsUrlCandidates] builds before it removes
    duplicates. *)
Definition raw_candidates (cfg : settings) : list string :=
  match fromQuery cfg with
  | Some q => if String.eqb q EmptyString then [] else [q]
  | None => []
  end
  ++ match stored cfg with
     | Fulfilled (JStr s) =>
         if String.eqb (trim s) EmptyString then [] else [trim s]
     | _ => []
     end
  ++ [DEFAULT_WS_URL] ++ FALLBACK_WS_URLS.

Definition resolveWsUrlCandidates (cfg : settings) : list string :=
  dedup (raw_candidates cfg).

Definition startReconnect (s : offscreen) : offscreen * list conn_action :=
  if reconnectInterval s then (s, [])
  else ({| ws_open := ws_open s; reconnectInterval := true;
           candidateIndex := candidateIndex s;
           candidatesCache := candidatesCache s |}, [SetInterval 3000]).

Definition connect (cfg : settings) (s : offscreen) : offscreen * list conn_action :=
  if ws_open s then (s, [])
  else
    let '(cache, index) :=
      match candidatesCache s with
      | Some cache => (cache, candidateIndex s)
      | None => (resolveWsUrlCandidates cfg, 0%nat)
      end in
    let wsUrl :=
      match cache !! index with
      | Some u => if String.eqb u EmptyString then DEFAULT_WS_URL else u
      | None => DEFAULT_WS_URL
      end in
    let s1 := {| ws_open := false; reconnectInterval := reconnectInterval s;
                 candidateIndex := index; candidatesCache := Some cache |} in
    if constructible wsUrl then (s1, [NewWebSocket wsUrl])
    else
      let '(s2, acts) := startReconnect s1 in
      (s2, ConstructFailed wsUrl :: acts).

(** The body of the interval callback before it calls [connect]. *)
Definition next_candidate (s : offscreen) : offscreen :=
  match candidatesCache s with
  | Some cache =>
      if (candidateIndex s + 1 <? length cache)%nat then
        {| ws_open := ws_open s; reconnectInterval := reconnectInterval s;
           candidateIndex := candidateIndex s + 1; candidatesCache := Some cache |}
      else
        {| ws_open := ws_open s; reconnectInterval := reconnectInterval s;
           candidateIndex := candidateIndex s; candidatesCache := None |}
  | None => s
  end.

Definition conn_step (s : offscreen) (e : conn_event) : offscreen * list conn_action :=
  match e with
  | Start cfg => connect cfg s
  | Tick cfg => if reconnectInterval s then connect cfg (next_candidate s) else (s, [])
  | WsOpen =>
      ({| ws_open := true; reconnectInterval := false;
          candidateIndex := candidateIndex s; candidatesCache := candidatesCache s |},
       (if reconnectInterval s then [ClearInterval] else []) ++ [SendHandshake])
  | WsClose =>
      startReconnect {| ws_open := false; reconnectInterval := reconnectInterval s;
                        candidateIndex := candidateIndex s;
                        candidatesCache := candidatesCache s |}
  | WsError => startReconnect s
  end.

Fixpoint conn_run (s : offscreen) (evs : list conn_event)
  : offscreen * list conn_action :=
  match evs with
  | [] => (s, [])
  | e :: evs' =>
      let '(s1, acts1) := conn_step s e in
      let '(s2, acts2) := conn_run s1 evs' in
      (s2, acts1 ++ acts2)
  end.

End Connection.

(** The addresses a list of actions tried to connect to, in order. *)
Definition attempts (acts : list conn_action) : list string :=
  omap (λ a, match a with
             | NewWebSocket url | ConstructFailed url => Some url
             | _ => None
             end) acts.

End Endpoint.

(** ** The relay (WebSocket server) *)

Module Relay.

(** A WebSocket connection, by identity. *)
Definition conn := nat.

(** What the promise of a pending request closes over: the controller
    connection [clientWs] and the command [message] it sent. *)
Record pending := {
  p_clientWs : conn;
  p_message : message
}.

(** The module-level state: [chromeExtension], [pendingRequests],
    [requestId]. *)
Record server := {
  chromeExtension : option conn;
  pendingRequests : gmap Z pending;
  requestId : Z
}.

Definition init : server :=
  {| chromeExtension := None; pendingRequests := ∅; requestId := 0 |}.

(** What the event loop delivers: a frame on a connection ([data] is the
    outcome of [JSON.parse]), the close of a connection, and the callback of
    the timer armed for request [id]. *)
Inductive event :=
| OnMessage (ws : conn) (data : reply message)
| OnClose (ws : conn)
| TimerFired (id : Z).

(** What a handler does besides changing the state: [ws.send], [setTimeout],
    and the settlement of the promise of request [id] ([resolve(message)] or
    [reject(new Error('Request timeout'))]). *)
Inductive action :=
| Send (ws : conn) (frame : message)
| SetTimeout (id : Z) (ms : Z)
| Resolve (id : Z) (response : message)
| Reject (id : Z) (error : string).

Definition not_connected : string := "Chrome 拡張機能が接続されていません".

(** [pendingRequests.get(message.id)]: the keys are the numbers handed out by
    [++requestId], so only a numeric [id] can be present. *)
Definition pending_of (s : server) (id : jsval) : option (Z * pending) :=
  match id with
  | JNum n => (λ p, (n, p)) <$> pendingRequests s !! n
  | _ => None
  end.

(** [message.id && pendingRequests.has(message.id)]: the pending request a
    frame answers, if any. *)
Definition matching (s : server) (m : message) : option (Z * pending) :=
  if truthy (msg_id m) then pending_of s (msg_id m) else None.

(** [handleCommand(clientWs, message)]; the promise it awaits is settled by
    a later event. *)
Definition handleCommand (s : server) (clientWs : conn) (m : message)
  : server * list action :=
  match chromeExtension s with
  | None => (s, [Send clientWs (error_frame (msg_id m) not_connected)])
  | Some extension =>
      let id := requestId s + 1 in
      ({| chromeExtension := chromeExtension s;
          pendingRequests := <[id := {| p_clientWs := clientWs; p_message := m |}]>
                               (pendingRequests s);
          requestId := id |},
       [SetTimeout id 30000; Send extension (with_id (JNum id) m)])
  end.

(** The handlers of [wss.on('connection')] and the timer callback. *)
Definition step (s : server) (e : event) : server * list action :=
  match e with
  | OnMessage ws (Rejected error) => (s, [Send ws (error_frame JUndefined error)])
  | OnMessage ws (Fulfilled m) =>
      if decide (msg_type m = JStr "connected") then
        ({| chromeExtension := Some ws; pendingRequests := pendingRequests s;
            requestId := requestId s |}, [])
      else
        match matching s m with
        | Some (id, p) =>
            ({| chromeExtension := chromeExtension s;
                pendingRequests := delete id (pendingRequests s);
                requestId := requestId s |},
             [Resolve id m; Send (p_clientWs p) m])
        | None =>
            if truthy (msg_command m) then handleCommand s ws m else (s, [])
        end
  | OnClose ws =>
      if decide (chromeExtension s = Some ws) then
        ({| chromeExtension := None; pendingRequests := pendingRequests s;
            requestId := requestId s |}, [])
      else (s, [])
  | TimerFired id =>
      match pendingRequests s !! id with
      | Some p =>
          ({| chromeExtension := chromeExtension s;
              pendingRequests := delete id (pendingRequests s);
              requestId := requestId s |},
           [Reject id "Request timeout";
            Send (p_clientWs p) (error_frame (msg_id (p_message p)) "Request timeout")])
      | None => (s, [])
      end
  end.

(** A run of the event loop: the final state and everything done, in order. *)
Fixpoint run (s : server) (evs : list event) : server * list action :=
  match evs with
  | [] => (s, [])
  | e :: evs' =>
      let '(s1, acts1) := step s e in
      let '(s2, acts2) := run s1 evs' in
      (s2, acts1 ++ acts2)
  end.

(** The events of a burst of frames, each on its connection. *)
Definition frames_of (cmds : list (conn * message)) : list event :=
  (λ cm, OnMessage cm.1 (Fulfilled cm.2)) <$> cmds.

(** The requests settled by a list of actions, and the frames sent. *)
Definition settled (acts : list action) : list Z :=
  omap (λ a, match a with
             | Resolve id _ | Reject id _ => Some id
             | _ => None
             end) acts.

Definition sent (acts : list action) : list (conn * message) :=
  omap (λ a, match a with
             | Send ws frame => Some (ws, frame)
             | _ => None
             end) acts.

(** The identifiers in use lie between 1 and the counter. *)
Definition ids_issued (s : server) : Prop :=
  0 ≤ requestId s
  ∧ ∀ id p, pendingRequests s !! id = Some p → 0 < id ≤ requestId s.


(** A command that carries no [id] of its own, as [client.js] sends them. *)
Definition plain_command (m : message) : Prop :=
  msg_type m ≠ JStr "connected" ∧ truthy (msg_id m) = false
  ∧ truthy (msg_command m) = true.

(** A command as [client.js] sends it: [{ command, params }]. *)
Definition command_frame (command : string) (params : jsval) : message :=
  {| msg_type := JUndefined; msg_id := JUndefined; msg_command := JStr command;
     msg_params := params; msg_result := JUndefined; msg_error := JUndefined;
     msg_message := JUndefined |}.

(** The handshake of the in-browser endpoint:
    [{ type: 'connected', message: 'Chrome extension connected' }]. *)
Definition handshake : message :=
  {| msg_type := JStr "connected"; msg_id := JUndefined; msg_command := JUndefined;
     msg_params := JUndefined; msg_result := JUndefined; msg_error := JUndefined;
     msg_message := JStr "Chrome extension connected" |}.

(** The requests for which a list of actions armed a timer, in order. *)
Definition armed (acts : list action) : list Z :=
  omap (λ a, match a with
             | SetTimeout id _ => Some id
             | _ => None
             end) acts.

End Relay.

(** ** The controller ([sendCommand] of the command-line client and of the
    MCP server) *)

Module Client.

(** What the promise of [sendCommand] is rejected with: [new
    Error(response.error)], the error of the socket, or the timeout error. *)
Inductive rejection :=
| ErrorOf (error : jsval)
| SocketFailure (error : string)
| TimedOut.

(** The events of the socket and of the 30 000 ms timer. *)
Inductive event :=
| Open
| Message (data : reply message)
| SocketError (error : string)
| Timer.

(** [ws.send], [ws.close], [resolve], [reject], and the exception that
    [JSON.parse] throws out of the message handler. *)
Inductive action :=
| WsSend (frame : message)
| WsClose
| PromiseResolve (result : jsval)
| PromiseReject (reason : rejection)
| Uncaught (error : string).

(** One handler of [sendCommand(command, params)]; the state is the flag
    [resolved]. *)
Definition step (command : string) (params : jsval) (resolved : bool) (e : event)
  : bool * list action :=
  match e with
  | Open => (resolved, [WsSend (Relay.command_frame command params)])
  | Message data =>
      if resolved then (resolved, [])
      else match data with
           | Rejected error => (true, [Uncaught error])
           | Fulfilled response =>
               (true,
                [WsClose;
                 if truthy (msg_error response)
                 then PromiseReject (ErrorOf (msg_error response))
                 else PromiseResolve (msg_result response)])
           end
  | SocketError error =>
      if resolved then (resolved, []) else (true, [PromiseReject (SocketFailure error)])
  | Timer =>
      if resolved then (resolved, []) else (true, [WsClose; PromiseReject TimedOut])
  end.

Fixpoint run (command : string) (params : jsval) (resolved : bool) (evs : list event)
  : bool * list action :=
  match evs with
  | [] => (resolved, [])
  | e :: evs' =>
      let '(r1, acts1) := step command params resolved e in
      let '(r2, acts2) := run command params r1 evs' in
      (r2, acts1 ++ acts2)
  end.

(** The settlements of the promise among a list of actions. *)
Definition is_settlement (a : action) : bool :=
  match a with
  | PromiseResolve _ | PromiseReject _ => true
  | _ => false
  end.

Definition settlements (acts : list action) : list action :=
  List.filter is_settlement acts.

End Client.

(** * Properties *)

(** ** Lists and slices *)

Section Slices.

Context {A : Type}.
Implicit Types l k : list A.

Lemma length_last_n n l : length (last_n n l) = (length l `min` n)%nat.
Proof. unfold last_n. rewrite length_drop. lia. Qed.

Lemma last_n_all n l : (length l ≤ n)%nat → last_n n l = l.
Proof.
  intros Hle. unfold last_n.
  replace (length l - n)%nat with 0%nat by lia. reflexivity.
Qed.

(** Truncating twice to the same bound, with new entries in between, is
    truncating once. *)
Lemma last_n_app_last_n n l k : last_n n (last_n n l ++ k) = last_n n (l ++ k).
Proof.
  destruct (decide (length l ≤ n)%nat) as [Hle|Hgt].
  - by rewrite (last_n_all n l).
  - unfold last_n. rewrite !drop_app, drop_drop, !length_app, !length_drop.
    f_equal; f_equal; lia.
Qed.

(** [slice(-n)] keeps the last [n] entries when [n] is positive. *)
Lemma slice_from_neg (n : Z) l : 0 < n → slice_from (- n) l = last_n (Z.to_nat n) l.
Proof.
  intros Hn. unfold slice_from, last_n.
  destruct (Z.ltb_spec (- n) 0) as [_|?]; [|lia].
  f_equal. lia.
Qed.

(** [slice(-0)] is [slice(0)]: the whole array. *)
Lemma slice_from_zero l : slice_from (- 0) l = l.
Proof.
  unfold slice_from. change (- 0 <? 0) with false. cbv iota.
  replace (Z.to_nat _) with 0%nat by lia. reflexivity.
Qed.


(** The truncation of the event listener: [if (len > bound) splice(0, len - bound)]. *)
Lemma truncate_last_n (bound : nat) l :
  (if Z.of_nat bound <? Z.of_nat (length l)
   then splice_front (Z.of_nat (length l) - Z.of_nat bound) l else l)
  = last_n bound l.
Proof.
  destruct (Z.ltb_spec (Z.of_nat bound) (Z.of_nat (length l))) as [Hlt|Hge].
  - unfold splice_front, last_n. f_equal. lia.
  - symmetry. apply last_n_all. lia.
Qed.

End Slices.

(** ** The background service worker: buffers *)

Module BackgroundFacts.
Import Background.

Lemma console_of_insert t t' msgs w :
  console_of (set_consoleMessages (insert t msgs) w) t'
  = if decide (t = t') then msgs else console_of w t'.
Proof.
  unfold console_of, set_consoleMessages; simpl.
  rewrite lookup_insert. by case_decide.
Qed.

Lemma network_of_insert t t' reqs w :
  network_of (set_networkRequests (insert t reqs) w) t'
  = if decide (t = t') then reqs else network_of w t'.
Proof.
  unfold network_of, set_networkRequests; simpl.
  rewrite lookup_insert. by case_decide.
Qed.

(** A console call appends its entry and keeps the most recent 500. *)
Lemma console_of_consoleAPICalled t type args timestamp w :
  console_of (onEvent t (Runtime_consoleAPICalled type args timestamp) w) t
  = last_n 500 (console_of w t ++
                [ {| c_type := type;
                     c_text := (λ l, join_space (arg_text <$> l)) <$> args;
                     c_timestamp := timestamp |} ]).
Proof.
  unfold onEvent. rewrite console_of_insert, decide_True by done.
  apply (truncate_last_n 500).
Qed.

Lemma consoleAPICalled_bounded t type args timestamp w :
  (length (console_of (onEvent t (Runtime_consoleAPICalled type args timestamp) w) t)
   ≤ 500)%nat.
Proof. rewrite console_of_consoleAPICalled, length_last_n. lia. Qed.

(** An exception appends its entry and truncates nothing. *)
Lemma console_of_exceptionThrown t details timestamp w :
  console_of (onEvent t (Runtime_exceptionThrown details timestamp) w) t
  = console_of w t ++ [ {| c_type := "error";
                           c_text := Some (exception_text details);
                           c_timestamp := timestamp |} ].
Proof. unfold onEvent. by rewrite console_of_insert, decide_True. Qed.

(** A network response appends its entry and keeps the most recent 200. *)
Lemma network_of_responseReceived t response requestId w :
  network_of (onEvent t (Network_responseReceived response requestId) w) t
  = last_n 200 (network_of w t ++
                [ {| n_url := response ≫= resp_url;
                     n_status := response ≫= resp_status;
                     n_mimeType := response ≫= resp_mimeType;
                     n_requestId := requestId |} ]).
Proof.
  unfold onEvent. rewrite network_of_insert, decide_True by done.
  apply (truncate_last_n 200).
Qed.

(** A notification touches the buffers of its own tab only. *)
Lemma onEvent_other_tab t t' ev w :
  t ≠ t' →
  console_of (onEvent t ev w) t' = console_of w t'
  ∧ network_of (onEvent t ev w) t' = network_of w t'.
Proof.
  intros Hne. destruct ev; unfold onEvent; simpl;
    rewrite ?console_of_insert, ?network_of_insert, ?decide_False by done; done.
Qed.

Lemma onEvent_network_length t t' ev w :
  (length (network_of w t') ≤ 200)%nat →
  (length (network_of (onEvent t ev w) t') ≤ 200)%nat.
Proof.
  intros Hle. destruct (decide (t = t')) as [->|Hne].
  - destruct ev; try done.
    rewrite network_of_responseReceived, length_last_n. lia.
  - by rewrite (proj2 (onEvent_other_tab t t' ev w Hne)).
Qed.

(** The network buffer of every tab stays within 200 entries, whatever is
    ingested. *)
Lemma ingest_network_bounded evs w :
  (∀ t, (length (network_of w t) ≤ 200)%nat) →
  ∀ t, (length (network_of (ingest evs w) t) ≤ 200)%nat.
Proof.
  revert w. induction evs as [|[t0 ev] evs IH]; intros w Hw t; [apply Hw|].
  simpl. apply IH. intros t'. by apply onEvent_network_length.
Qed.

Lemma ingest_app evs1 evs2 w : ingest (evs1 ++ evs2) w = ingest evs2 (ingest evs1 w).
Proof. unfold ingest. by rewrite foldl_app. Qed.

(** Console calls alone keep the most recent 500 entries, oldest first. *)
Lemma ingest_console_calls t n w :
  (length (console_of w t) ≤ 500)%nat →
  console_of (ingest (console_calls t n) w) t
  = last_n 500 (console_of w t ++ (console_call_entry <$> seq 1 n)).
Proof.
  intros Hw. induction n as [|n IH].
  - simpl. by rewrite app_nil_r, last_n_all.
  - unfold console_calls in *. rewrite seq_S, !fmap_app, ingest_app.
    change (ingest ((λ i, (t, Runtime_consoleAPICalled "log" (Some []) (Z.of_nat i)))
                      <$> [(1 + n)%nat]) ?w)
      with (onEvent t (Runtime_consoleAPICalled "log" (Some []) (Z.of_nat (1 + n))) w).
    rewrite console_of_consoleAPICalled, IH, last_n_app_last_n, <-app_assoc.
    reflexivity.
Qed.

(** Exceptions alone grow the console buffer without bound. *)
Lemma ingest_exceptions_length t ev n w :
  length (console_of (ingest (replicate n (t, Runtime_exceptionThrown ev 0)) w) t)
  = (length (console_of w t) + n)%nat.
Proof.
  revert w. induction n as [|n IH]; intros w; [simpl; lia|].
  change (ingest (replicate (S n) (t, Runtime_exceptionThrown ev 0)) w)
    with (ingest (replicate n (t, Runtime_exceptionThrown ev 0))
            (onEvent t (Runtime_exceptionThrown ev 0) w)).
  rewrite IH, console_of_exceptionThrown, length_app. simpl. lia.
Qed.

(** C1, at the failing input.  After 501 [Runtime.exceptionThrown]
    notifications for tab 7 the console buffer of tab 7 holds 501 entries,
    more than the bound of 500: the exception branch of the listener pushes
    without the truncation that the console-call branch applies. *)
Theorem console_buffer_exceeds_500 :
  length (console_of
            (ingest (replicate 501 (7, Runtime_exceptionThrown None 0)) init) 7)
  = 501%nat.
Proof. by rewrite ingest_exceptions_length. Qed.

(** ** The background service worker: reading the buffers *)

Lemma same_globals_refl w : same_globals w w.
Proof. by repeat split. Qed.

Lemma same_globals_record_call c w : same_globals w (record_call c w).
Proof. by repeat split. Qed.

Lemma same_globals_console w w' t : same_globals w w' → console_of w' t = console_of w t.
Proof. intros (_ & H & _). unfold console_of. by rewrite H. Qed.

Lemma same_globals_network w w' t : same_globals w w' → network_of w' t = network_of w t.
Proof. intros (_ & _ & H). unfold network_of. by rewrite H. Qed.

Lemma await_globals {A} c (r : list api_call → reply A) w o w' :
  await c r w = (o, w') → same_globals w w'.
Proof.
  unfold await. destruct (r (calls w)); intros [= <- <-];
    apply same_globals_record_call.
Qed.

(** [getActiveTab] only asks the browser. *)
Lemma getActiveTab_globals chrome t w o w' :
  getActiveTab chrome t w = (o, w') → same_globals w w'.
Proof.
  unfold getActiveTab, bind, ret, throw. intros H.
  destruct t as [t|]; [destruct (t =? 0)|];
    match type of H with
    | context [await ?c ?r w] =>
        destruct (await c r w) as [[a|e|] w2] eqn:E; apply await_globals in E
    end;
    try destruct a; by injection H as <- <-.
Qed.

Lemma readConsole_eq chrome p w tab w1 :
  getActiveTab chrome (rd_tabId p) w = (Done tab, w1) →
  readConsole chrome p w
  = (Done {| messages := slice_from (- default 100 (rd_limit p)) (console_of w tab);
             messages_count :=
               Z.of_nat (length (slice_from (- default 100 (rd_limit p))
                                   (console_of w tab))) |},
     if default false (rd_clear p)
     then set_consoleMessages (insert tab []) w1 else w1).
Proof.
  intros Htab. pose proof (getActiveTab_globals _ _ _ _ _ Htab) as Hg.
  unfold readConsole, bind, get_world. rewrite Htab.
  rewrite (same_globals_console _ _ tab Hg).
  by destruct (default false (rd_clear p)).
Qed.

Lemma readNetwork_eq chrome p w tab w1 :
  getActiveTab chrome (rd_tabId p) w = (Done tab, w1) →
  readNetwork chrome p w
  = (Done {| requests := slice_from (- default 50 (rd_limit p)) (network_of w tab);
             requests_count :=
               Z.of_nat (length (slice_from (- default 50 (rd_limit p))
                                   (network_of w tab))) |},
     if default false (rd_clear p)
     then set_networkRequests (insert tab []) w1 else w1).
Proof.
  intros Htab. pose proof (getActiveTab_globals _ _ _ _ _ Htab) as Hg.
  unfold readNetwork, bind, get_world. rewrite Htab.
  rewrite (same_globals_network _ _ tab Hg).
  by destruct (default false (rd_clear p)).
Qed.

(** C7, as amended.  When the tab resolves and the limit [N] (100 for the
    console and 50 for the network when absent) is positive, the read returns
    the last [N] entries of the tab's buffer, in order, with their count.
    Without [clear] both maps are left as they were.  With [clear] the whole
    buffer of the tab is replaced by the empty one, whatever part of it was
    returned, and the buffers of the other tabs are left as they were. *)
Theorem read_returns_last_entries chrome p w tab w1 :
  getActiveTab chrome (rd_tabId p) w = (Done tab, w1) →
  match rd_limit p with Some n => 0 < n | None => True end →
  ∃ rc wc rn wn,
    readConsole chrome p w = (Done rc, wc)
    ∧ readNetwork chrome p w = (Done rn, wn)
    ∧ messages rc = last_n (Z.to_nat (default 100 (rd_limit p))) (console_of w tab)
    ∧ messages_count rc = Z.of_nat (length (messages rc))
    ∧ requests rn = last_n (Z.to_nat (default 50 (rd_limit p))) (network_of w tab)
    ∧ requests_count rn = Z.of_nat (length (requests rn))
    ∧ (if default false (rd_clear p)
       then console_of wc tab = [] ∧ network_of wn tab = []
            ∧ ∀ t, t ≠ tab → console_of wc t = console_of w t
                             ∧ network_of wn t = network_of w t
       else same_globals w wc ∧ same_globals w wn).
Proof.
  intros Htab Hlimit.
  pose proof (getActiveTab_globals _ _ _ _ _ Htab) as Hg.
  eexists _, _, _, _.
  split; [by apply readConsole_eq|]. split; [by apply readNetwork_eq|].
  simpl. repeat split.
  - apply slice_from_neg. destruct (rd_limit p); simpl; lia.
  - apply slice_from_neg. destruct (rd_limit p); simpl; lia.
  - destruct (default false (rd_clear p)); [|done].
    repeat split.
    + by rewrite console_of_insert, decide_True.
    + by rewrite network_of_insert, decide_True.
    + rewrite console_of_insert, decide_False by done.
      by apply same_globals_console.
    + rewrite network_of_insert, decide_False by done.
      by apply same_globals_network.
Qed.

(** The scenario of C7: tab 7 is attached, 600 console calls are ingested,
    and the console is read with limit 100 and without [clear].  The read
    returns calls 501 to 600 and leaves 500 entries in the buffer. *)
Lemma read_returns_last_entries_witness :
  let chrome := page_browser empty_document in
  let w := ingest (console_calls 7 600) (ensureDebuggerAttached chrome 7 init).2 in
  let p := {| rd_tabId := Some 7; rd_clear := Some false; rd_limit := Some 100 |} in
  ∃ rc wc,
    readConsole chrome p w = (Done rc, wc)
    ∧ messages rc = console_call_entry <$> seq 501 100
    ∧ messages_count rc = 100
    ∧ length (console_of wc 7) = 500%nat.
Proof.
  intros chrome w p.
  destruct (read_returns_last_entries chrome p w 7 (record_call (Tabs_get 7) w))
    as (rc & wc & rn & wn & Hc & _ & Hm & Hcount & _ & _ & Hg & _).
  { reflexivity. }
  { simpl. lia. }
  exists rc, wc. split; [exact Hc|].
  assert (messages rc = console_call_entry <$> seq 501 100) as Hrc.
  { rewrite Hm. vm_compute. reflexivity. }
  split; [exact Hrc|]. split.
  - rewrite Hcount, Hrc. reflexivity.
  - simpl in Hg. rewrite (same_globals_console _ _ 7 Hg). vm_compute. reflexivity.
Defined.

(** C7, as the claim states it, fails when [clear] is set and the buffer is
    longer than the limit: with three entries buffered for tab 7, a read with
    limit 1 and [clear] returns the last entry alone and leaves the buffer
    empty, so the two entries outside the returned window are gone too. *)
Lemma read_clear_drops_unreturned_entries :
  let chrome := page_browser empty_document in
  let w := ingest (console_calls 7 3) init in
  let p := {| rd_tabId := Some 7; rd_clear := Some true; rd_limit := Some 1 |} in
  console_of w 7 = [console_call_entry 1; console_call_entry 2; console_call_entry 3]
  ∧ (readConsole chrome p w).1
    = Done {| messages := [console_call_entry 3]; messages_count := 1 |}
  ∧ console_of (readConsole chrome p w).2 7 = [].
Proof. vm_compute. done. Qed.

(** *** Tabs without a session *)


Lemma no_session_forget t w : no_session (forget t w) t.
Proof.
  unfold no_session, forget; simpl.
  split; [|split; apply lookup_delete_eq].
  intros [_ H]%elem_of_difference. by apply H, elem_of_singleton.
Qed.

Lemma no_session_record_call c t w : no_session w t → no_session (record_call c w) t.
Proof. done. Qed.



(** ** The background service worker: attach and detach *)

Lemma ensure_attached_noop chrome t w :
  t ∈ attachedTabs w → ensureDebuggerAttached chrome t w = (Done (), w).
Proof.
  intros Hin. unfold ensureDebuggerAttached, bind, get_world.
  by rewrite decide_True.
Qed.


Lemma ensure_attach_fails chrome t w message :
  t ∉ attachedTabs w →
  debugger_attach chrome (calls w) t = Rejected message →
  includes "Already attached" message = false →
  ensureDebuggerAttached chrome t w
  = (Threw (String.append "Debugger attach failed: " message),
     record_call (Debugger_attach t) w).
Proof.
  intros Hnotin Hattach Hmsg. unfold ensureDebuggerAttached, bind, get_world.
  rewrite decide_False by done.
  unfold try_catch, await. rewrite Hattach, Hmsg. reflexivity.
Qed.



(** Detaching an attached tab always succeeds, whatever the browser says,
    and leaves the tab without a session. *)
Lemma detach_attached chrome t w :
  t ∈ attachedTabs w →
  detachDebugger chrome t w = (Done (), forget t (record_call (Debugger_detach t) w)).
Proof.
  intros Hin. unfold detachDebugger, bind, get_world.
  rewrite decide_True by done.
  unfold try_catch, await, modify, ret.
  by destruct (debugger_detach chrome (calls w) t).
Qed.

(** Every way out of a session leaves the tab without one. *)
Lemma detach_leaves_no_session chrome t w w' :
  t ∈ attachedTabs w → detachDebugger chrome t w = (Done (), w') → no_session w' t.
Proof.
  intros Hin. rewrite detach_attached by done. intros [= <-].
  apply no_session_forget.
Qed.

Lemma onDetach_leaves_no_session t w : no_session (onDetach t w) t.
Proof. apply no_session_forget. Qed.



(** ** The background service worker: evaluate and its retry *)

Section Scripted.

Variable attempts : nat → reply cdp_result.
Variable params : evaluate_params.

Let chrome := scripted attempts.

(** The tab the scripted browser resolves [params.tabId] to. *)
Let tab : Z :=
  match ev_tabId params with
  | Some t => if t =? 0 then 1 else t
  | None => 1
  end.

Lemma scripted_getActiveTab w :
  ∃ c, getActiveTab chrome (ev_tabId params) w = (Done tab, record_call c w)
       ∧ is_evaluate c = false ∧ is_attach c = false.
Proof.
  subst tab. unfold getActiveTab.
  destruct (ev_tabId params) as [t|]; [destruct (t =? 0)|]; by eexists.
Qed.

(** In the scripted browser [ensureDebuggerAttached] succeeds, with one
    attach call when the tab was not recorded and none when it was. *)
Lemma scripted_ensure t w :
  ∃ w', ensureDebuggerAttached chrome t w = (Done (), w')
        ∧ t ∈ attachedTabs w'
        ∧ count_calls is_evaluate (calls w') = count_calls is_evaluate (calls w)
        ∧ count_calls is_attach (calls w')
          = ((if decide (t ∈ attachedTabs w) then 0 else 1)
             + count_calls is_attach (calls w))%nat.
Proof.
  destruct (decide (t ∈ attachedTabs w)) as [Hin|Hnotin].
  - exists w. by rewrite ensure_attached_noop.
  - eexists. split; [|split].
    + unfold ensureDebuggerAttached, bind, get_world.
      rewrite decide_False by done. reflexivity.
    + simpl. repeat case_decide; simpl; set_solver.
    + simpl. repeat case_decide; simpl; done.
Qed.

(** One attempt of [cdpEvaluate] in a state with [i] earlier attempts: a
    "not attached" rejection leads to a re-attach and to the whole function
    again; anything else ends the evaluation. *)
Lemma scripted_attempt fuel w i :
  count_calls is_evaluate (calls w) = i →
  ∃ w',
    count_calls is_evaluate (calls w') = S i
    ∧ (if is_not_attached (attempts i)
       then cdpEvaluate chrome (S fuel) params w = cdpEvaluate chrome fuel params w'
            ∧ tab ∈ attachedTabs w'
            ∧ count_calls is_attach (calls w')
              = ((if decide (tab ∈ attachedTabs w) then 1 else 2)
                 + count_calls is_attach (calls w))%nat
       else cdpEvaluate chrome (S fuel) params w = (finish (attempts i), w')
            ∧ count_calls is_attach (calls w')
              = ((if decide (tab ∈ attachedTabs w) then 0 else 1)
                 + count_calls is_attach (calls w))%nat).
Proof.
  intros Hi.
  destruct (scripted_getActiveTab w) as (c & Htab & Hce & Hca).
  destruct (scripted_ensure tab (record_call c w)) as (w1 & Hens & Hin1 & He1 & Ha1).
  simpl in He1, Ha1. rewrite Hce in He1. rewrite Hca in Ha1. simpl in He1, Ha1.
  set (wq := record_call (Debugger_sendCommand tab
                (Runtime_evaluate (IsolatedEval (ev_script params)))) w1).
  assert (cdpEvaluate chrome (S fuel) params w
          = match attempts i with
            | Fulfilled result => (Done (evaluate_reply_of result), wq)
            | Rejected message =>
                if includes "not attached" message
                then bind (ensureDebuggerAttached chrome tab)
                       (λ _, cdpEvaluate chrome fuel params)
                       (set_attachedTabs (λ s, s ∖ {[tab]}) wq)
                else (Threw message, wq)
            end) as Hstep.
  { cbn [cdpEvaluate]. unfold bind at 1. rewrite Htab.
    unfold bind at 1. rewrite Hens.
    unfold try_catch, bind at 1, cdpSend, await. simpl.
    rewrite He1, Hi. destruct (attempts i) as [result|message]; [done|].
    by destruct (includes "not attached" message). }
  assert (count_calls is_evaluate (calls wq) = S i) as Heq.
  { simpl. by rewrite He1, Hi. }
  rewrite Hstep. clear Hstep.
  destruct (attempts i) as [result|message]; simpl.
  { exists wq. by rewrite Heq. }
  destruct (includes "not attached" message).
  - destruct (scripted_ensure tab (set_attachedTabs (λ s, s ∖ {[tab]}) wq))
      as (w3 & Hens3 & Hin3 & He3 & Ha3).
    change (calls (set_attachedTabs _ wq)) with (calls wq) in He3, Ha3.
    exists w3. rewrite He3, Heq.
    split; [done|]. split; [|split; [done|]].
    + unfold bind. by rewrite Hens3.
    + rewrite Ha3, decide_False.
      * simpl. rewrite Ha1. by destruct (decide (tab ∈ attachedTabs w)).
      * simpl. intros [_ H]%elem_of_difference. by apply H, elem_of_singleton.
  - exists wq. by rewrite Heq.
Qed.

(** The number of cycles is the number of leading "not attached"
    rejections. *)
Lemma scripted_retries k : ∀ j fuel w,
  (∀ i, (j ≤ i < k)%nat → is_not_attached (attempts i) = true) →
  is_not_attached (attempts k) = false →
  (j ≤ k)%nat → (k - j < fuel)%nat →
  count_calls is_evaluate (calls w) = j →
  ∃ w', cdpEvaluate chrome fuel params w = (finish (attempts k), w')
        ∧ count_calls is_evaluate (calls w') = S k
        ∧ count_calls is_attach (calls w')
          = ((if decide (tab ∈ attachedTabs w) then 0 else 1) + (k - j)
             + count_calls is_attach (calls w))%nat.
Proof.
  intros j fuel. remember (k - j)%nat as d eqn:Hd.
  revert j fuel Hd. induction d as [|d IH]; intros j fuel Hd w Hretry Hlast Hjk Hfuel Hj.
  - assert (j = k) as -> by lia.
    destruct fuel as [|fuel]; [lia|].
    destruct (scripted_attempt fuel w k Hj) as (w' & He & Hstep).
    rewrite Hlast in Hstep. destruct Hstep as [Hrun Ha].
    exists w'. split; [done|]. split; [done|]. rewrite Ha.
    destruct (decide (tab ∈ attachedTabs w)); lia.
  - destruct fuel as [|fuel]; [lia|].
    destruct (scripted_attempt fuel w j Hj) as (w1 & He & Hstep).
    rewrite Hretry in Hstep by lia. destruct Hstep as (Hrun & Hin & Ha).
    destruct (IH (S j) fuel ltac:(lia) w1) as (w' & Hrun' & He' & Ha');
      [intros i Hi; apply Hretry; lia|done|lia|lia|done|].
    exists w'. rewrite Hrun. split; [done|]. split; [done|].
    rewrite Ha', Ha, decide_True by done.
    destruct (decide (tab ∈ attachedTabs w)); lia.
Qed.

(** When every attempt is rejected with "not attached", the recursion never
    ends: whatever budget it gets, it uses it up. *)
Lemma scripted_never_returns fuel : ∀ w,
  (∀ i, is_not_attached (attempts i) = true) →
  ∃ w', cdpEvaluate chrome fuel params w = (OutOfFuel, w')
        ∧ count_calls is_evaluate (calls w')
          = (fuel + count_calls is_evaluate (calls w))%nat.
Proof.
  induction fuel as [|fuel IH]; intros w Hall; [by exists w|].
  destruct (scripted_attempt fuel w _ eq_refl) as (w1 & He & Hstep).
  rewrite Hall in Hstep. destruct Hstep as (Hrun & _).
  destruct (IH w1 Hall) as (w' & Hrun' & He').
  exists w'. rewrite Hrun. split; [done|]. rewrite He', He. lia.
Qed.

End Scripted.

(** C2, as amended.  Every "not attached" rejection of the evaluate call is
    answered by a re-attach and a new attempt, without a cap: when the first
    [k] attempts are rejected that way and attempt [k] is not, the executor
    performs exactly [k] re-attach-and-retry cycles ([k + 1] attach calls and
    [k + 1] evaluate calls from a fresh state) and ends as attempt [k] ends. *)
Theorem evaluate_retries_while_not_attached attempts params k fuel :
  (∀ i, (i < k)%nat → is_not_attached (attempts i) = true) →
  is_not_attached (attempts k) = false →
  (k < fuel)%nat →
  ∃ w', cdpEvaluate (scripted attempts) fuel params init = (finish (attempts k), w')
        ∧ count_calls is_evaluate (calls w') = S k
        ∧ count_calls is_attach (calls w') = S k.
Proof.
  intros Hretry Hlast Hfuel.
  destruct (scripted_retries attempts params k 0 fuel init)
    as (w' & Hrun & He & Ha); [intros; apply Hretry; lia|done|lia|lia|done|].
  exists w'. split; [done|]. split; [done|].
  rewrite Ha. simpl. rewrite decide_False by apply not_elem_of_empty. lia.
Qed.

Lemma evaluate_retries_while_not_attached_witness :
  ∃ w', cdpEvaluate (scripted (detached_times 3)) 5
          {| ev_script := "document.title"; ev_tabId := None |} init
        = (Done (EvalResult (Plain (JNum 42))), w')
        ∧ count_calls is_evaluate (calls w') = 4%nat
        ∧ count_calls is_attach (calls w') = 4%nat.
Proof.
  apply (evaluate_retries_while_not_attached (detached_times 3)
           {| ev_script := "document.title"; ev_tabId := None |} 3 5).
  - intros i Hi. unfold detached_times.
    destruct (Nat.ltb_spec i 3) as [_|?]; [reflexivity|lia].
  - reflexivity.
  - lia.
Defined.

(** C2, as the claim states it, fails: when the debugger is reported as not
    attached on the first two attempts, the executor does not give up after
    one re-attach-and-retry cycle; it runs a second one (three attach calls,
    three evaluate calls) and returns the value of the third attempt. *)
Lemma evaluate_retries_twice :
  let r := cdpEvaluate (scripted (detached_times 2)) 3
             {| ev_script := "document.title"; ev_tabId := None |} init in
  r.1 = Done (EvalResult (Plain (JNum 42)))
  ∧ count_calls is_evaluate (calls r.2) = 3%nat
  ∧ count_calls is_attach (calls r.2) = 3%nat.
Proof. vm_compute. done. Qed.

(** When the debugger is reported as not attached on every attempt,
    [cdpEvaluate] never settles: it makes as many attempts as the budget
    allows, for every budget. *)
Lemma evaluate_never_settles_when_never_attached params fuel :
  ∃ w', cdpEvaluate (scripted detached_forever) fuel params init = (OutOfFuel, w')
        ∧ count_calls is_evaluate (calls w') = fuel.
Proof.
  destruct (scripted_never_returns detached_forever params fuel init)
    as (w' & Hrun & He); [done|].
  exists w'. split; [done|]. rewrite He. simpl. lia.
Qed.


(** ** The background service worker: commands that look an element up *)

Section Page.

Variable d : document.

Let chrome := page_browser d.

Lemma page_getActiveTab t w :
  ∃ tab c, getActiveTab chrome t w = (Done tab, record_call c w).
Proof.
  unfold getActiveTab. destruct t as [t|]; [destruct (t =? 0)|]; by eexists _, _.
Qed.

Lemma page_ensure t w : ∃ w', ensureDebuggerAttached chrome t w = (Done (), w').
Proof.
  destruct (decide (t ∈ attachedTabs w)) as [Hin|Hnotin].
  - exists w. by apply ensure_attached_noop.
  - eexists. unfold ensureDebuggerAttached, bind, get_world.
    rewrite decide_False by done. reflexivity.
Qed.

Lemma page_cdpSend t cmd w :
  ∃ r, cdpSend chrome t cmd w = (Done r, record_call (Debugger_sendCommand t cmd) w)
       ∧ debugger_sendCommand chrome (calls w) t cmd = Fulfilled r.
Proof. unfold cdpSend, await. simpl. destruct cmd; by eexists. Qed.

(** [cdpType] never looks at what the focus expression came back with: in a
    browser where the calls succeed it reports success for every selector. *)
Lemma cdpType_ignores_lookup p w :
  ∃ w', cdpType chrome p w = (Done {| typed := ty_text p |}, w').
Proof.
  unfold cdpType.
  destruct (page_getActiveTab (ty_tabId p) w) as (tab & c & Htab).
  unfold bind at 1. rewrite Htab.
  destruct (page_ensure tab (record_call c w)) as (w1 & Hens).
  unfold bind at 1. rewrite Hens.
  unfold bind, cdpSend, await, ret. simpl.
  destruct (given (ty_selector p)), (ty_pressEnter p); simpl; by eexists.
Qed.

(** [cdpScroll] with a selector reports success whether or not the selector
    matches. *)
Lemma cdpScroll_ignores_lookup p sel w :
  given (sc_selector p) = Some sel →
  ∃ w', cdpScroll chrome p w = (Done (ScrolledTo sel), w').
Proof.
  intros Hsel. unfold cdpScroll.
  destruct (page_getActiveTab (sc_tabId p) w) as (tab & c & Htab).
  unfold bind at 1. rewrite Htab.
  destruct (page_ensure tab (record_call c w)) as (w1 & Hens).
  unfold bind at 1. rewrite Hens, Hsel.
  unfold bind, cdpSend, await, ret. simpl. by eexists.
Qed.

(** [cdpClick] checks the outcome of its lookup. *)
Lemma cdpClick_missing_element p sel w :
  given (ck_selector p) = Some sel →
  ck_x p = None ∨ ck_y p = None →
  querySelector d sel = None → xpath_first d sel = None →
  ∃ w', cdpClick chrome p w = (Threw (String.append "Element not found: " sel), w').
Proof.
  intros Hsel Hxy Hcss Hxpath. unfold cdpClick.
  destruct (page_getActiveTab (ck_tabId p) w) as (tab & c & Htab).
  unfold bind at 1. rewrite Htab.
  destruct (page_ensure tab (record_call c w)) as (w1 & Hens).
  unfold bind at 1. rewrite Hens, Hsel.
  unfold bind, cdpSend, await, ret, throw. simpl. rewrite Hcss, Hxpath. simpl.
  destruct Hxy as [-> | ->]; [|destruct (ck_x p)]; by eexists.
Qed.

End Page.

(** C9, at the failing input.  On a page where nothing matches ["#missing"],
    the focus expression of [cdpType] throws "Element not found", which the
    browser reports in [exceptionDetails]; [cdpType] does not look at it,
    inserts the text and answers [{ success: true, typed }].  [cdpScroll]
    answers [{ success: true, scrolledTo }] for the same selector. *)
Theorem cdpType_reports_success_for_missing_element :
  let chrome := page_browser empty_document in
  exceptionDetails (page_eval empty_document (FocusAndClear "#missing" true))
  = Some {| exc_text := Some "Uncaught"%string;
            exc_description := Some "Error: Element not found: #missing"%string |}
  ∧ (onMessage_command
       (cdpType chrome {| ty_selector := Some "#missing"%string; ty_text := "hello";
                          ty_clear := true; ty_pressEnter := false;
                          ty_tabId := None |}) init).1
    = Some (Answer {| typed := "hello" |})
  ∧ (onMessage_command
       (cdpScroll chrome {| sc_x := 0; sc_y := 0; sc_deltaX := 0; sc_deltaY := 0;
                            sc_selector := Some "#missing"%string;
                            sc_tabId := None |}) init).1
    = Some (Answer (ScrolledTo "#missing")).
Proof. vm_compute. done. Qed.

(** The native click on the same page does report the missing element. *)
Lemma cdpClick_reports_missing_element :
  (onMessage_command
     (cdpClick (page_browser empty_document)
        {| ck_x := None; ck_y := None; ck_selector := Some "#missing"%string;
           ck_tabId := None |}) init).1
  = Some (ErrorAnswer "Element not found: #missing").
Proof. vm_compute. done. Qed.

End BackgroundFacts.

(** ** The content script *)

Module ContentFacts.
Import Content.

(** The DOM-fallback click and scroll answer [{ error: 'Element not found:
    <selector>' }] when the selector matches nothing, and touch nothing. *)
Lemma clickElement_missing d p :
  ck_x p = None ∨ ck_y p = None →
  findElement d (ck_selector p) = None →
  clickElement d p = (Threw (String.append "Element not found: " (ck_selector p)), [])
  ∧ onMessage (clickElement d p).1
    = Some (ErrorAnswer (String.append "Element not found: " (ck_selector p))).
Proof.
  intros Hxy Hfind. unfold clickElement. rewrite Hfind.
  destruct Hxy as [-> | ->]; [|destruct (ck_x p)]; done.
Qed.

Lemma scrollPage_missing d p selector :
  Background.given (sc_selector p) = Some selector →
  findElement d selector = None →
  scrollPage d p = (Threw (String.append "Element not found: " selector), [])
  ∧ onMessage (scrollPage d p).1
    = Some (ErrorAnswer (String.append "Element not found: " selector)).
Proof. intros Hsel Hfind. unfold scrollPage. by rewrite Hsel, Hfind. Qed.

End ContentFacts.

(** ** The in-browser endpoint and the relay *)

Module EndpointFacts.
Import Endpoint.

(** Every frame received is answered with exactly one frame. *)
Lemma onmessage_one_frame parsed sendMessage :
  length (onmessage parsed sendMessage) = 1%nat.
Proof.
  unfold onmessage. destruct parsed as [data|]; [|done].
  by destruct (sendMessage data).
Qed.

(** When the service worker answers, the frame carries the id of the
    command. *)
Lemma onmessage_answered data sendMessage result :
  sendMessage data = Fulfilled result →
  onmessage (Fulfilled data) sendMessage = [result_frame (msg_id data) result].
Proof. intros H. unfold onmessage. by rewrite H. Qed.

(** When the delegation throws, the frame carries [id: null]. *)
Lemma onmessage_failed data sendMessage error :
  sendMessage data = Rejected error →
  onmessage (Fulfilled data) sendMessage = [error_frame JNull error].
Proof. intros H. unfold onmessage. by rewrite H. Qed.

(** The relay matches no pending request to a frame with [id: null], and
    such an error frame is no command either: it is dropped. *)
Lemma relay_drops_null_id s ws error :
  Relay.step s (Relay.OnMessage ws (Fulfilled (error_frame JNull error))) = (s, []).
Proof. reflexivity. Qed.

(** C3, at the failing input.  A controller sends [navigate]; the relay
    forwards it with id 1; in the endpoint [chrome.runtime.sendMessage]
    rejects.  The endpoint answers with one frame, whose id is [null] and not
    1; the relay drops that frame, request 1 stays pending and the controller
    hears of the failure only as the timeout of the relay. *)
Theorem delegation_failure_loses_request_id :
  let command := Relay.command_frame "navigate" (JData "{}") in
  let failure :=
    "Could not establish connection. Receiving end does not exist."%string in
  let s1 := (Relay.run Relay.init
               [Relay.OnMessage 0%nat (Fulfilled Relay.handshake);
                Relay.OnMessage 1%nat (Fulfilled command)]).1 in
  let forwarded := with_id (JNum 1) command in
  let answer := onmessage (Fulfilled forwarded) (λ _, Rejected failure) in
  Relay.sent (Relay.run Relay.init
                [Relay.OnMessage 0%nat (Fulfilled Relay.handshake);
                 Relay.OnMessage 1%nat (Fulfilled command)]).2
  = [(0%nat, forwarded)]
  ∧ answer = [error_frame JNull failure]
  ∧ msg_id (error_frame JNull failure) ≠ msg_id forwarded
  ∧ Relay.step s1 (Relay.OnMessage 0%nat (Fulfilled (error_frame JNull failure))) = (s1, [])
  ∧ Relay.sent (Relay.step s1 (Relay.TimerFired 1)).2
    = [(1%nat, error_frame JUndefined "Request timeout")].
Proof. vm_compute. repeat split; done. Qed.

End EndpointFacts.

(** ** The relay *)

Module RelayFacts.
Import Relay.

Lemma run_cons s e evs :
  run s (e :: evs)
  = ((run (step s e).1 evs).1, (step s e).2 ++ (run (step s e).1 evs).2).
Proof.
  cbn [run]. destruct (step s e) as [s1 a1]. cbn [fst snd].
  by destruct (run s1 evs).
Qed.

Lemma run_app s evs1 evs2 :
  run s (evs1 ++ evs2)
  = ((run (run s evs1).1 evs2).1, (run s evs1).2 ++ (run (run s evs1).1 evs2).2).
Proof.
  revert s. induction evs1 as [|e evs1 IH]; intros s.
  - simpl. by destruct (run s evs2).
  - rewrite <-app_comm_cons, !run_cons, IH. simpl. by rewrite app_assoc.
Qed.

Lemma settled_app a b : settled (a ++ b) = settled a ++ settled b.
Proof. apply omap_app. Qed.

Lemma sent_app a b : sent (a ++ b) = sent a ++ sent b.
Proof. apply omap_app. Qed.

Lemma matching_Some s m id p :
  matching s m = Some (id, p) →
  msg_id m = JNum id ∧ pendingRequests s !! id = Some p.
Proof.
  unfold matching, pending_of. destruct (truthy (msg_id m)); [|done].
  destruct (msg_id m) as [| | |n| |]; try done.
  destruct (pendingRequests s !! n) as [q|] eqn:Hq; [|done].
  by intros [= <- <-].
Qed.

Lemma matching_pending s m id p :
  msg_id m = JNum id → id ≠ 0 → pendingRequests s !! id = Some p →
  matching s m = Some (id, p).
Proof.
  intros Hid Hnz Hp. unfold matching, pending_of. rewrite Hid. simpl.
  destruct (Z.eqb_spec id 0) as [?|_]; [done|]. simpl. by rewrite Hp.
Qed.

Lemma matching_no_id s m : truthy (msg_id m) = false → matching s m = None.
Proof. intros H. unfold matching. by rewrite H. Qed.

(** What a step can do to the pending set: leave it, add the next id, or
    settle one pending id and remove it. *)
Lemma step_cases s e :
  (settled (step s e).2 = []
   ∧ ((pendingRequests (step s e).1 = pendingRequests s
       ∧ requestId (step s e).1 = requestId s)
      ∨ ∃ p, pendingRequests (step s e).1 = <[requestId s + 1 := p]> (pendingRequests s)
             ∧ requestId (step s e).1 = requestId s + 1))
  ∨ ∃ id p, pendingRequests s !! id = Some p
            ∧ settled (step s e).2 = [id]
            ∧ pendingRequests (step s e).1 = delete id (pendingRequests s)
            ∧ requestId (step s e).1 = requestId s.
Proof.
  destruct e as [ws [m|error]|ws|id]; simpl.
  - case_decide; [by left; split; [|left]|].
    destruct (matching s m) as [[id p]|] eqn:Hm.
    + apply matching_Some in Hm as [_ Hp]. right. by exists id, p.
    + left. destruct (truthy (msg_command m)); [|by split; [|left]].
      unfold handleCommand. destruct (chromeExtension s); simpl.
      * split; [done|]. right. by eexists.
      * by split; [|left].
  - by left; split; [|left].
  - left. case_decide; by split; [|left].
  - destruct (pendingRequests s !! id) as [p|] eqn:Hp.
    + right. by exists id, p.
    + by left; split; [|left].
Qed.

(** The invariant of the event loop: the ids in use are between 1 and the
    counter, and the ids settled so far are distinct, issued, and no longer
    pending. *)
Lemma step_settled_once s e (done_ids : list Z) :
  ids_issued s → NoDup done_ids →
  (∀ id, id ∈ done_ids → pendingRequests s !! id = None ∧ id ≤ requestId s) →
  ids_issued (step s e).1
  ∧ NoDup (done_ids ++ settled (step s e).2)
  ∧ ∀ id, id ∈ done_ids ++ settled (step s e).2 →
          pendingRequests (step s e).1 !! id = None ∧ id ≤ requestId (step s e).1.
Proof.
  intros [Hpos Hissued] Hnodup Hdone.
  unfold ids_issued.
  destruct (step_cases s e)
    as [[-> [[-> ->]|(p & -> & ->)]]|(id & p & Hp & -> & -> & ->)].
  - rewrite app_nil_r. done.
  - rewrite app_nil_r. split; [split; [lia|]|split; [done|]].
    + intros id q. rewrite lookup_insert. case_decide as Hid.
      * intros _. lia.
      * intros Hq. apply Hissued in Hq. lia.
    + intros id Hid. destruct (Hdone id Hid) as [Hnone Hle].
      rewrite lookup_insert_ne by lia. split; [done|lia].
  - split; [split; [done|]|split].
    + intros id' q. rewrite lookup_delete. case_decide; [done|]. apply Hissued.
    + apply NoDup_app. split; [done|]. split; [|apply NoDup_singleton].
      intros id' Hin ->%list_elem_of_singleton.
      destruct (Hdone id Hin) as [Hnone _]. congruence.
    + intros id' [Hin| ->%list_elem_of_singleton]%elem_of_app.
      * destruct (Hdone id' Hin) as [Hnone Hle]. split; [|done].
        rewrite lookup_delete. by case_decide.
      * split; [apply lookup_delete_eq|]. apply Hissued in Hp. lia.
Qed.

Lemma run_settled_once evs : ∀ s (done_ids : list Z),
  ids_issued s → NoDup done_ids →
  (∀ id, id ∈ done_ids → pendingRequests s !! id = None ∧ id ≤ requestId s) →
  ids_issued (run s evs).1
  ∧ NoDup (done_ids ++ settled (run s evs).2)
  ∧ ∀ id, id ∈ done_ids ++ settled (run s evs).2 →
          pendingRequests (run s evs).1 !! id = None ∧ id ≤ requestId (run s evs).1.
Proof.
  induction evs as [|e evs IH]; intros s done_ids Hs Hnodup Hdone.
  - simpl. rewrite app_nil_r. done.
  - rewrite run_cons. simpl. rewrite settled_app, app_assoc.
    destruct (step_settled_once s e done_ids Hs Hnodup Hdone) as (Hs1 & Hnodup1 & Hdone1).
    by apply IH.
Qed.

Lemma ids_issued_init : ids_issued init.
Proof. split; [done|]. intros id p. simpl. by rewrite lookup_empty. Qed.

(** Every state the relay reaches keeps its ids between 1 and the counter. *)
Lemma ids_issued_run evs : ids_issued (run init evs).1.
Proof.
  apply (run_settled_once evs init []); [apply ids_issued_init|constructor|].
  intros id Hid. by apply elem_of_nil in Hid.
Qed.



(** *** Routing *)

(** After a burst of commands, command [i] is pending under the id
    [requestId + 1 + i], for the connection it came from. *)
Lemma run_commands cmds : ∀ s extension,
  chromeExtension s = Some extension →
  Forall (λ cm, plain_command cm.2) cmds →
  let s1 := (run s (frames_of cmds)).1 in
  requestId s1 = requestId s + Z.of_nat (length cmds)
  ∧ (∀ id, id ≤ requestId s → pendingRequests s1 !! id = pendingRequests s !! id)
  ∧ ∀ i cm, cmds !! i = Some cm →
            pendingRequests s1 !! (requestId s + 1 + Z.of_nat i)
            = Some {| p_clientWs := cm.1; p_message := cm.2 |}.
Proof.
  induction cmds as [|[ws m] cmds IH]; intros s extension Hext Hcmds.
  - simpl. split; [lia|]. split; [done|]. intros i cm Hi. by rewrite lookup_nil in Hi.
  - apply Forall_cons in Hcmds as [(Htype & Hid & Hcommand) Hcmds].
    simpl in Htype, Hid, Hcommand.
    unfold frames_of. rewrite fmap_cons, run_cons. cbn [fst snd].
    assert (step s (OnMessage ws (Fulfilled m)) = handleCommand s ws m) as ->.
    { simpl. rewrite decide_False by done.
      by rewrite (matching_no_id s m Hid), Hcommand. }
    unfold handleCommand. rewrite Hext. cbn [fst].
    set (s' := {| chromeExtension := _; pendingRequests := _; requestId := _ |}).
    destruct (IH s' extension eq_refl Hcmds) as (Hreq & Hold & Hnew).
    fold (frames_of cmds). subst s'. simpl in *.
    split; [lia|]. split.
    + intros id Hid'. rewrite Hold by lia. by rewrite lookup_insert_ne by lia.
    + intros [|i] cm Hi; simpl in Hi.
      * injection Hi as <-. rewrite Hold by lia.
        replace (requestId s + 1 + Z.of_nat 0) with (requestId s + 1) by lia.
        by rewrite lookup_insert_eq.
      * replace (requestId s + 1 + Z.of_nat (S i))
          with (requestId s + 1 + 1 + Z.of_nat i) by lia.
        by apply Hnew.
Qed.

(** Responses to pending requests, in any order without repetition, are
    each sent to the connection recorded for their id. *)
Lemma run_responses (base : Z) (client : nat → conn) (original : nat → message)
    (response : nat → message) (source : nat → conn) order : ∀ s,
  0 ≤ base → NoDup order →
  (∀ i, i ∈ order →
        pendingRequests s !! (base + 1 + Z.of_nat i)
        = Some {| p_clientWs := client i; p_message := original i |}) →
  (∀ i, msg_type (response i) ≠ JStr "connected"
        ∧ msg_id (response i) = JNum (base + 1 + Z.of_nat i)) →
  sent (run s ((λ i, OnMessage (source i) (Fulfilled (response i))) <$> order)).2
  = (λ i, (client i, response i)) <$> order.
Proof.
  induction order as [|i order IH]; intros s Hbase Hnodup Hpending Hresponse; [done|].
  apply NoDup_cons in Hnodup as [Hi Hnodup].
  destruct (Hresponse i) as [Htype Hid].
  rewrite fmap_cons, run_cons. cbn [fst snd].
  assert (step s (OnMessage (source i) (Fulfilled (response i)))
          = ({| chromeExtension := chromeExtension s;
                pendingRequests := delete (base + 1 + Z.of_nat i) (pendingRequests s);
                requestId := requestId s |},
             [Resolve (base + 1 + Z.of_nat i) (response i);
              Send (client i) (response i)])) as ->.
  { simpl. rewrite decide_False by done.
    rewrite (matching_pending s (response i) (base + 1 + Z.of_nat i)
               {| p_clientWs := client i; p_message := original i |});
      [done|done|lia|]. apply Hpending. by left. }
  rewrite sent_app, fmap_cons. simpl. f_equal.
  apply IH; [done|done| |done].
  intros j Hj. simpl. rewrite lookup_delete_ne.
  - apply Hpending. by right.
  - intros Heq. assert (i = j) as -> by lia. done.
Qed.

(** C5.  A burst of commands, from any connections, is forwarded while an
    endpoint is registered; their responses then arrive in an arbitrary
    order [order] (a permutation of the positions of the commands), on any
    connection.  The frames the relay sends are these responses, in the order
    of arrival, each to the connection that sent the command whose id the
    response carries. *)
Theorem responses_routed_by_id s extension (cmds : list (conn * message))
    (order : list nat) (response : nat → message) (source : nat → conn) :
  chromeExtension s = Some extension →
  0 ≤ requestId s →
  Forall (λ cm, plain_command cm.2) cmds →
  order ≡ₚ seq 0 (length cmds) →
  (∀ i, msg_type (response i) ≠ JStr "connected"
        ∧ msg_id (response i) = JNum (requestId s + 1 + Z.of_nat i)) →
  Forall2 (λ i out, ∃ cm, cmds !! i = Some cm ∧ out = (cm.1, response i))
    order
    (sent (run (run s (frames_of cmds)).1
             ((λ i, OnMessage (source i) (Fulfilled (response i))) <$> order)).2).
Proof.
  intros Hext Hpos Hcmds Hperm Hresponse.
  destruct (run_commands cmds s extension Hext Hcmds) as (_ & _ & Hnew).
  assert (∀ i, i ∈ order → ∃ cm, cmds !! i = Some cm) as Hin.
  { intros i Hi. rewrite Hperm in Hi. apply elem_of_seq in Hi.
    apply lookup_lt_is_Some_2. lia. }
  rewrite (run_responses (requestId s)
             (λ i, default 0%nat (fst <$> cmds !! i))
             (λ i, default empty_message (snd <$> cmds !! i))).
  - apply Forall2_fmap_r, Forall_Forall2_diag, Forall_forall.
    intros i Hi. destruct (Hin i Hi) as [cm Hcm]. exists cm.
    split; [done|]. unfold conn in *. by rewrite Hcm.
  - done.
  - rewrite Hperm. apply NoDup_seq.
  - intros i Hi. destruct (Hin i Hi) as [cm Hcm]. unfold conn in *.
    rewrite Hcm. simpl. by apply Hnew.
  - done.
Qed.

(** Three commands from three controllers, answered in the order 2, 0, 1. *)
Lemma responses_routed_by_id_witness :
  let s := (run init [OnMessage 0%nat (Fulfilled handshake)]).1 in
  let cmds := [(1%nat, command_frame "navigate" (JData "{}"));
               (2%nat, command_frame "getTabs" (JData "{}"));
               (3%nat, command_frame "reload" (JData "{}"))] in
  let response := λ i : nat, result_frame (JNum (1 + Z.of_nat i)) (JData "{}") in
  Forall2 (λ i out, ∃ cm, cmds !! i = Some cm ∧ out = (cm.1, response i))
    [2; 0; 1]%nat
    (sent (run (run s (frames_of cmds)).1
             ((λ i, OnMessage 0%nat (Fulfilled (response i))) <$> [2; 0; 1]%nat)).2).
Proof.
  intros s cmds response.
  apply (responses_routed_by_id s 0%nat cmds [2; 0; 1]%nat response (λ _, 0%nat)).
  - reflexivity.
  - reflexivity.
  - repeat constructor; discriminate.
  - simpl. etrans; [apply Permutation_swap|]. apply Permutation_skip, Permutation_swap.
  - intros i. split; [discriminate|reflexivity].
Defined.

(** The frames of that run, written out. *)
Example responses_out_of_order :
  let s := (run init [OnMessage 0%nat (Fulfilled handshake)]).1 in
  let cmds := [(1%nat, command_frame "navigate" (JData "{}"));
               (2%nat, command_frame "getTabs" (JData "{}"));
               (3%nat, command_frame "reload" (JData "{}"))] in
  let response := λ i : nat, result_frame (JNum (1 + Z.of_nat i)) (JData "{}") in
  sent (run (run s (frames_of cmds)).1
          ((λ i, OnMessage 0%nat (Fulfilled (response i))) <$> [2; 0; 1]%nat)).2
  = [(3%nat, response 2%nat); (1%nat, response 0%nat); (2%nat, response 1%nat)].
Proof. reflexivity. Qed.



End RelayFacts.

(** ** The background service worker: what the commands leave alone *)

Module BackgroundFrame.
Import Background.

Section Respects.

Variable chrome : browser.
Variable R : world → world → Prop.

Hypothesis R_refl : ∀ w, R w w.
Hypothesis R_trans : ∀ w1 w2 w3, R w1 w2 → R w2 w3 → R w1 w3.
Hypothesis R_call : ∀ c w, R w (record_call c w).
Hypothesis R_attached : ∀ f w, R w (set_attachedTabs f w).
Hypothesis R_console_init : ∀ t w,
  consoleMessages w !! t = None → R w (set_consoleMessages (insert t []) w).
Hypothesis R_network_init : ∀ t w,
  networkRequests w !! t = None → R w (set_networkRequests (insert t []) w).

Lemma respects_ret {A} (a : A) : respects R (ret a).
Proof. intros w o w' [= <- <-]. apply R_refl. Qed.

Lemma respects_throw {A} message : respects R (@throw A message).
Proof. intros w o w' [= <- <-]. apply R_refl. Qed.

Lemma respects_get_world : respects R get_world.
Proof. intros w o w' [= <- <-]. apply R_refl. Qed.

Lemma respects_modify f : (∀ w, R w (f w)) → respects R (modify f).
Proof. intros Hf w o w' [= <- <-]. apply Hf. Qed.

Lemma respects_bind {A B} (m : M A) (k : A → M B) :
  respects R m → (∀ a, respects R (k a)) → respects R (bind m k).
Proof.
  intros Hm Hk w o w'. unfold bind.
  destruct (m w) as [[a|e|] w1] eqn:Hrun; specialize (Hm _ _ _ Hrun).
  - intros Hrun'. by apply (R_trans _ w1), (Hk a _ _ _ Hrun').
  - by intros [= <- <-].
  - by intros [= <- <-].
Qed.

Lemma respects_try_catch {A} (m : M A) handler :
  respects R m → (∀ e, respects R (handler e)) → respects R (try_catch m handler).
Proof.
  intros Hm Hh w o w'. unfold try_catch.
  destruct (m w) as [[a|e|] w1] eqn:Hrun; specialize (Hm _ _ _ Hrun).
  - by intros [= <- <-].
  - intros Hrun'. by apply (R_trans _ w1), (Hh e _ _ _ Hrun').
  - by intros [= <- <-].
Qed.

Lemma respects_await {A} c (r : list api_call → reply A) : respects R (await c r).
Proof.
  intros w o w'. unfold await. destruct (r (calls w)); intros [= <- <-]; apply R_call.
Qed.

Lemma respects_cdpSend t cmd : respects R (cdpSend chrome t cmd).
Proof. apply respects_await. Qed.

Lemma respects_getActiveTab t : respects R (getActiveTab chrome t).
Proof.
  unfold getActiveTab.
  destruct t as [t|]; [destruct (t =? 0)|];
    (apply respects_bind; [apply respects_await|]);
    intros [|]; auto using respects_ret, respects_throw.
Qed.

Lemma respects_ensure t : respects R (ensureDebuggerAttached chrome t).
Proof.
  unfold ensureDebuggerAttached. intros w o w'. unfold bind at 1, get_world.
  destruct (decide (t ∈ attachedTabs w)); [apply respects_ret|].
  apply respects_try_catch.
  - repeat (apply respects_bind; [|intros ?]);
      auto using respects_await, respects_cdpSend, respects_modify.
    + apply respects_modify. intros w0. case_decide as Hsome; [apply R_refl|].
      apply R_console_init. by apply eq_None_not_Some.
    + apply respects_modify. intros w0. case_decide as Hsome; [apply R_refl|].
      apply R_network_init. by apply eq_None_not_Some.
  - intros e. destruct (includes _ e);
      auto using respects_modify, respects_throw.
Qed.

Lemma respects_cdpEvaluate fuel params : respects R (cdpEvaluate chrome fuel params).
Proof.
  induction fuel as [|fuel IH]; [intros w o w' [= <- <-]; apply R_refl|].
  cbn [cdpEvaluate].
  apply respects_bind; [apply respects_getActiveTab|]. intros tab.
  apply respects_bind; [apply respects_ensure|]. intros _.
  apply respects_try_catch.
  - apply respects_bind; [apply respects_cdpSend|]. intros r. apply respects_ret.
  - intros e. destruct (includes _ e); [|apply respects_throw].
    apply respects_bind; [by apply respects_modify|]. intros _.
    apply respects_bind; [apply respects_ensure|]. intros _. apply IH.
Qed.

Lemma respects_cdpClick params : respects R (cdpClick chrome params).
Proof.
  unfold cdpClick.
  apply respects_bind; [apply respects_getActiveTab|]. intros tab.
  apply respects_bind; [apply respects_ensure|]. intros _.
  apply respects_bind.
  - destruct (given (ck_selector params)) as [sel|];
      [destruct (ck_x params), (ck_y params)|]; try apply respects_ret;
      (apply respects_bind; [apply respects_cdpSend|]);
      intros r; destruct (result_value r) as [[v|x y]|];
      try destruct (truthy v); auto using respects_ret, respects_throw.
  - intros click. repeat (apply respects_bind; [apply respects_cdpSend|intros _]).
    apply respects_ret.
Qed.

Lemma respects_cdpType params : respects R (cdpType chrome params).
Proof.
  unfold cdpType.
  apply respects_bind; [apply respects_getActiveTab|]. intros tab.
  apply respects_bind; [apply respects_ensure|]. intros _.
  apply respects_bind.
  { destruct (given (ty_selector params)); [|apply respects_ret].
    apply respects_bind; [apply respects_cdpSend|]. intros _. apply respects_ret. }
  intros _. apply respects_bind; [apply respects_cdpSend|]. intros _.
  apply respects_bind; [|intros _; apply respects_ret].
  destruct (ty_pressEnter params); [|apply respects_ret].
  repeat (apply respects_bind; [apply respects_cdpSend|intros _]). apply respects_ret.
Qed.

Lemma respects_cdpScroll params : respects R (cdpScroll chrome params).
Proof.
  unfold cdpScroll.
  apply respects_bind; [apply respects_getActiveTab|]. intros tab.
  apply respects_bind; [apply respects_ensure|]. intros _.
  destruct (given (sc_selector params));
    (apply respects_bind; [apply respects_cdpSend|]); intros _; apply respects_ret.
Qed.

Lemma respects_debuggerAttach : respects R (debuggerAttach chrome).
Proof.
  unfold debuggerAttach.
  apply respects_bind; [apply respects_getActiveTab|]. intros tab.
  apply respects_bind; [apply respects_ensure|]. intros _. apply respects_ret.
Qed.

(** The commands that may also empty or delete a buffer. *)
Hypothesis R_console_clear : ∀ t w, R w (set_consoleMessages (insert t []) w).
Hypothesis R_network_clear : ∀ t w, R w (set_networkRequests (insert t []) w).
Hypothesis R_forget : ∀ t w, R w (forget t w).

Lemma respects_detach t : respects R (detachDebugger chrome t).
Proof.
  unfold detachDebugger. intros w o w'. unfold bind at 1, get_world.
  destruct (decide (t ∈ attachedTabs w)); [|apply respects_ret].
  apply respects_bind; [|intros _; by apply respects_modify].
  apply respects_try_catch; [apply respects_await|]. intros _. apply respects_ret.
Qed.

Lemma respects_readConsole params : respects R (readConsole chrome params).
Proof.
  unfold readConsole.
  apply respects_bind; [apply respects_getActiveTab|]. intros tab.
  apply respects_bind; [apply respects_get_world|]. intros w0.
  apply respects_bind; [|intros _; apply respects_ret].
  destruct (default false (rd_clear params)); [by apply respects_modify|apply respects_ret].
Qed.

Lemma respects_readNetwork params : respects R (readNetwork chrome params).
Proof.
  unfold readNetwork.
  apply respects_bind; [apply respects_getActiveTab|]. intros tab.
  apply respects_bind; [apply respects_get_world|]. intros w0.
  apply respects_bind; [|intros _; apply respects_ret].
  destruct (default false (rd_clear params)); [by apply respects_modify|apply respects_ret].
Qed.

Lemma respects_debuggerDetachCommand : respects R (debuggerDetachCommand chrome).
Proof.
  unfold debuggerDetachCommand.
  apply respects_bind; [apply respects_getActiveTab|]. intros tab.
  apply respects_bind; [apply respects_detach|]. intros _. apply respects_ret.
Qed.

(** Every command leaves a state related to the one it started from. *)
Lemma respects_after c w : R w (after chrome c w).
Proof.
  destruct c; simpl;
    match goal with
    | |- R w (?m w).2 =>
        destruct (m w) as [o w'] eqn:Hrun; simpl; revert Hrun
    end;
    [apply respects_cdpEvaluate|apply respects_cdpClick|apply respects_cdpType
    |apply respects_cdpScroll|apply respects_readConsole|apply respects_readNetwork
    |apply respects_debuggerAttach|apply respects_debuggerDetachCommand
    |apply respects_detach].
Qed.

End Respects.

End BackgroundFrame.
